(** * ldshell [maintenance] command: classification, filtering and rendering

    Shallow embedding of
    [logdevice/ops/ldshell/autoload/commands/maintenance.py].

    Python exceptions are values of [Result]; generators are the lists they
    yield; the text primitives of [tabulate], [termcolor], [textwrap] and
    [humanize] and the [safety] formatter are the fields of one interface,
    [TextPrimitives], so that every statement holds for any implementation of
    them. *)

From Stdlib Require Import Strings.Ascii Strings.String.
From stdpp Require Import base decidable option list gmap strings pretty.
From stdpp Require Import sorting.

Local Open Scope string_scope.
Local Open Scope list_scope.
Local Open Scope Z_scope.

Set Warnings "-clear-no-such-hyp".

(** ** Exceptions and the error monad *)

Inductive Exception : Type :=
  | KeyError (key : string)
  | ValueError (msg : string)
  | AttributeError (msg : string)
  | NodeNotFoundError.

Inductive Result (A : Type) : Type :=
  | Ok (a : A)
  | Raise (e : Exception).

Arguments Ok {A} a.
Arguments Raise {A} e.

Global Instance Result_ret : MRet Result := λ A a, Ok a.
Global Instance Result_bind : MBind Result := λ A B f m,
  match m with
  | Ok a => f a
  | Raise e => Raise e
  end.
Global Instance Result_fmap : FMap Result := λ A B f m,
  match m with
  | Ok a => Ok (f a)
  | Raise e => Raise e
  end.

Definition is_Ok {A} (r : Result A) : Prop :=
  match r with Ok _ => True | Raise _ => False end.

(** ** Enumerations

    The thrift enumerations are imported by the command module.  Each is a
    module holding the type [t] and the attribute [name]. *)

(** Modelled from the spec: [ShardOperationalState] is declared in
    [logdevice.admin.nodes.types]; the members are those the command module
    names, and [Other] stands for every member it does not name. *)
Module ShardOperationalState.
Inductive t : Type :=
  | UNKNOWN
  | MAY_DISAPPEAR
  | DRAINED
  | PROVISIONING
  | MIGRATING_DATA
  | Other (member : string).

Global Instance eq_dec : EqDecision t.
Proof. solve_decision. Defined.

Definition name (s : t) : string :=
  match s with
  | UNKNOWN => "UNKNOWN"
  | MAY_DISAPPEAR => "MAY_DISAPPEAR"
  | DRAINED => "DRAINED"
  | PROVISIONING => "PROVISIONING"
  | MIGRATING_DATA => "MIGRATING_DATA"
  | Other member => member
  end.
End ShardOperationalState.

(** Modelled from the spec: [MaintenanceStatus] is declared in
    [logdevice.admin.nodes.types]; [Other] stands for every member the command
    module does not name (not started, awaiting a step, ...). *)
Module MaintenanceStatus.
Inductive t : Type :=
  | BLOCKED_UNTIL_SAFE
  | REBUILDING_IS_BLOCKED
  | COMPLETED
  | Other (member : string).

Global Instance eq_dec : EqDecision t.
Proof. solve_decision. Defined.

Definition name (s : t) : string :=
  match s with
  | BLOCKED_UNTIL_SAFE => "BLOCKED_UNTIL_SAFE"
  | REBUILDING_IS_BLOCKED => "REBUILDING_IS_BLOCKED"
  | COMPLETED => "COMPLETED"
  | Other member => member
  end.
End MaintenanceStatus.

(** Modelled from the spec: [MaintenanceProgress] is declared in
    [logdevice.admin.maintenance.types]; the spec's data model gives its
    members (overallStatus). *)
Module MaintenanceProgress.
Inductive t : Type :=
  | UNKNOWN
  | IN_PROGRESS
  | BLOCKED_UNTIL_SAFE
  | COMPLETED.

Global Instance eq_dec : EqDecision t.
Proof. solve_decision. Defined.

Definition name (s : t) : string :=
  match s with
  | UNKNOWN => "UNKNOWN"
  | IN_PROGRESS => "IN_PROGRESS"
  | BLOCKED_UNTIL_SAFE => "BLOCKED_UNTIL_SAFE"
  | COMPLETED => "COMPLETED"
  end.
End MaintenanceProgress.

(** Modelled from the spec: [MaintenancePriority] is declared in
    [logdevice.admin.maintenance.types]; the spec's data model gives its
    members (priority). *)
Module MaintenancePriority.
Inductive t : Type :=
  | IMMINENT
  | HIGH
  | MEDIUM
  | LOW.

Global Instance eq_dec : EqDecision t.
Proof. solve_decision. Defined.

Definition name (s : t) : string :=
  match s with
  | IMMINENT => "IMMINENT"
  | HIGH => "HIGH"
  | MEDIUM => "MEDIUM"
  | LOW => "LOW"
  end.
End MaintenancePriority.

(** Modelled from the spec: the sequencing states and the impacts of a safety
    check are only printed by their [name]; a member is its name. *)
Record SequencingState : Type := { sequencing_state_name : string }.
Record OperationImpact : Type := { operation_impact_name : string }.

Inductive RenderingMode : Type :=
  | COMPACT
  | EXPANDED
  | EXPANDED_WITH_SHARDS
  | EXPANDED_WITH_SAFETY_CHECKS.

Global Instance RenderingMode_eq_dec : EqDecision RenderingMode.
Proof. solve_decision. Defined.

(** ** Severity colours *)

(** [_color_maintenance_status] *)
Definition _color_maintenance_status (arg : MaintenanceStatus.t) : string :=
  if bool_decide (arg ∈ [MaintenanceStatus.BLOCKED_UNTIL_SAFE;
                         MaintenanceStatus.REBUILDING_IS_BLOCKED])
  then "red"
  else if decide (arg = MaintenanceStatus.COMPLETED) then "green"
  else "yellow".

(** [_color_maintenance_overall_status] *)
Definition _color_maintenance_overall_status (arg : MaintenanceProgress.t)
  : string :=
  let color := "white" in
  if decide (arg = MaintenanceProgress.COMPLETED) then "green"
  else if decide (arg = MaintenanceProgress.BLOCKED_UNTIL_SAFE) then "red"
  else if decide (arg = MaintenanceProgress.UNKNOWN) then "red"
  else if decide (arg = MaintenanceProgress.IN_PROGRESS) then "yellow"
  else color.

(** [_color_priority] *)
Definition _color_priority (arg : MaintenancePriority.t) : string :=
  let color := "white" in
  if decide (arg = MaintenancePriority.IMMINENT) then "magenta"
  else if decide (arg = MaintenancePriority.HIGH) then "red"
  else if decide (arg = MaintenancePriority.LOW) then "blue"
  else color.

(** The enumeration values a caller can hand to [_color]: Python dispatches on
    [type(arg)], so the argument carries its enumeration class. *)
Inductive EnumValue : Type :=
  | ProgressValue (v : MaintenanceProgress.t)
  | StatusValue (v : MaintenanceStatus.t)
  | PriorityValue (v : MaintenancePriority.t).

Definition type_name (arg : EnumValue) : string :=
  match arg with
  | ProgressValue _ => "MaintenanceProgress"
  | StatusValue _ => "MaintenanceStatus"
  | PriorityValue _ => "MaintenancePriority"
  end.

(** [_color]: a dictionary from the two status classes to their classifier,
    indexed with [type(arg)]; a missing key raises [KeyError]. *)
Definition _color (arg : EnumValue) : Result string :=
  match arg with
  | ProgressValue v => Ok (_color_maintenance_overall_status v)
  | StatusValue v => Ok (_color_maintenance_status v)
  | PriorityValue _ => Raise (KeyError (type_name arg))
  end.

(** ** State satisfaction *)

(** [_satisfy_shard_op_state] *)
Definition _satisfy_shard_op_state (cur tgt : ShardOperationalState.t) : bool :=
  if decide (tgt = ShardOperationalState.MAY_DISAPPEAR) then
    if bool_decide (cur ∈ [ShardOperationalState.MAY_DISAPPEAR;
                           ShardOperationalState.DRAINED;
                           ShardOperationalState.PROVISIONING;
                           ShardOperationalState.MIGRATING_DATA])
    then true
    else false
  else if decide (tgt = ShardOperationalState.DRAINED) then
    if decide (cur = ShardOperationalState.DRAINED) then true else false
  else false.

(** [_color_shard_op_state] *)
Definition _color_shard_op_state (cur tgt : ShardOperationalState.t) : string :=
  if _satisfy_shard_op_state cur tgt then "green" else "yellow".

(** ** Data model *)

(** A [datetime]; [min] over datetimes is the earliest one. *)
Definition datetime : Type := Z.

Record NodeID : Type := { node_index : Z }.

Record ShardID : Type := { node : NodeID; shard_index : Z }.

(** The thrift record of one shard's maintenance, as read through
    [ShardMaintenanceProgress.from_thrift]. *)
Record ShardMaintenanceProgress : Type := {
  status : MaintenanceStatus.t;
  last_updated_at : datetime;
}.

Record ShardState : Type := {
  current_operational_state : ShardOperationalState.t;
  maintenance : option ShardMaintenanceProgress;
}.

Record SequencerState : Type := { state : SequencingState }.

Record CheckImpactResponse : Type := { impact_of : list OperationImpact }.

(** Modelled from the spec: [MaintenanceView] is declared in
    [ldops.types.maintenance_view]; the fields are the attributes and
    accessors the command module reads (the spec's MaintenanceRecord). *)
Record MaintenanceView : Type := {
  group_id : string;
  affected_node_indexes : list Z;
  affected_storage_node_indexes : list Z;
  affected_storage_node_ids : list NodeID;
  affects_shards : bool;
  affects_sequencers : bool;
  shard_target_state : option ShardOperationalState.t;
  sequencer_target_state : option SequencingState;
  num_shards_done : Z;
  num_shards_total : Z;
  are_all_shards_done : bool;
  num_sequencers_done : Z;
  num_sequencers_total : Z;
  are_all_sequencers_done : bool;
  overall_status : MaintenanceProgress.t;
  priority : option MaintenancePriority.t;
  user : string;
  reason : option string;
  extras : list (string * string);
  created_on : option datetime;
  expires_on : option datetime;
  skip_safety_checks : bool;
  skip_capacity_checks : bool;
  allow_passive_drains : bool;
  force_restore_rebuilding : bool;
  is_internal : bool;
  is_blocked : bool;
  is_completed : bool;
  is_in_progress : bool;
  last_check_impact_result : option CheckImpactResponse;
  sequencer_nodes : list NodeID;
  get_shards_by_node_index : Z → list ShardID;
  get_shard_state : ShardID → option ShardState;
  get_shard_maintenance_status : ShardID → MaintenanceStatus.t;
  get_shard_last_updated_at : ShardID → option datetime;
  get_sequencer_maintenance_status : NodeID → MaintenanceStatus.t;
  get_sequencer_last_updated_at : NodeID → option datetime;
}.

Record NodeView : Type := {
  nv_node_index : Z;
  node_name : string;
  location : option string;
  shard_states : list ShardState;
  sequencer_state : option SequencerState;
}.

(** Modelled from the spec: [ClusterView] is declared in
    [ldops.types.cluster_view]; the snapshot joins the topology with the
    maintenance records.  Its lookups are taken as the interface gives them:
    [get_node_view(node_index=...)] and [get_node_index(node_name=...)]
    return the node or raise, [NodeNotFoundError] when the node is absent. *)
Record ClusterView : Type := {
  get_node_view : Z → Result NodeView;
  get_node_index : string → Result Z;
  get_all_maintenance_views : list MaintenanceView;
}.

(** ** Python built-ins used by the module *)

(** An optional value whose attribute [name] is read: on [None] the read
    raises [AttributeError]. *)
Definition not_none {A} (v : option A) : Result A :=
  match v with
  | Some a => Ok a
  | None => Raise (AttributeError "'NoneType' object has no attribute 'name'")
  end.

(** The same for another attribute: [v.attribute] on [None]. *)
Definition not_none_for {A} (attribute : string) (v : option A) : Result A :=
  match v with
  | Some a => Ok a
  | None =>
      Raise (AttributeError
               ("'NoneType' object has no attribute '" +:+ attribute +:+ "'"))
  end.

(** The line feed. *)
Definition newline : string := String "010"%char "".

Definition str_bool (b : bool) : string := if b then "True" else "False".

(** Truth value of an optional string: [None] and the empty string are false. *)
Definition truthy_str (s : option string) : bool :=
  match s with
  | Some s => negb (String.eqb s "")
  | None => false
  end.

(** [Counter(xs).items()]: the distinct elements in order of first occurrence,
    each with its number of occurrences. *)
Fixpoint counter_add {A} `{EqDecision A} (x : A) (c : list (A * nat))
  : list (A * nat) :=
  match c with
  | [] => [(x, 1%nat)]
  | (y, n) :: c' =>
      if decide (x = y) then (y, S n) :: c' else (y, n) :: counter_add x c'
  end.

Definition Counter {A} `{EqDecision A} (xs : list A) : list (A * nat) :=
  foldl (λ c x, counter_add x c) [] xs.

(** [sorted(xs, key=key)] on string keys: a stable sort. *)
Fixpoint sorted_insert {A} (key : A → string) (x : A) (l : list A) : list A :=
  match l with
  | [] => [x]
  | y :: l' =>
      if String.leb (key x) (key y) then x :: y :: l'
      else y :: sorted_insert key x l'
  end.

Definition sorted {A} (key : A → string) (xs : list A) : list A :=
  foldr (sorted_insert key) [] xs.

(** [min] of a sequence of datetimes; the empty sequence raises
    [ValueError]. *)
Definition py_min (xs : list datetime) : Result datetime :=
  match xs with
  | [] => Raise (ValueError "min() arg is an empty sequence")
  | x :: xs' => Ok (foldl Z.min x xs')
  end.

(** A table cell handed to [tabulate]. *)
Inductive Cell : Type :=
  | CellStr (s : string)
  | CellInt (n : Z)
  | CellNone.

Definition cell_of_option (s : option string) : Cell :=
  match s with Some s => CellStr s | None => CellNone end.

(** The text primitives the module calls but does not define. *)
Class TextPrimitives : Type := {
  (** [termcolor.colored(text, color)] *)
  colored : string → string → string;
  (** [tabulate(tabular_data, headers, tablefmt="plain")] *)
  tabulate : list (list Cell) → option (list string) → string;
  (** [textwrap.shorten(text, width, placeholder)] *)
  shorten : string → Z → string → string;
  (** [textwrap.indent(text, prefix)] *)
  indent : string → string → string;
  (** [humanize.naturaltime(value)] *)
  naturaltime : datetime → string;
  (** [str] of a datetime *)
  str_datetime : datetime → string;
  (** [safety.impacts_to_string] *)
  impacts_to_string : list OperationImpact → string;
  (** [safety.check_impact_string(response, shards, target_state)] *)
  check_impact_string :
    option CheckImpactResponse → list ShardID →
    option ShardOperationalState.t → string;
}.

(** ** Rendering *)

Section Rendering.
Context `{TextPrimitives}.

(** The optional priority with its default. *)
Definition priority_or_medium (mv : MaintenanceView) : MaintenancePriority.t :=
  match priority mv with
  | Some p => p
  | None => MaintenancePriority.MEDIUM
  end.

(** The progress chip of the compact view: [TARGET(done/total)]. *)
Definition progress_text (target : string) (done total : Z) : string :=
  target +:+ "(" +:+ pretty done +:+ "/" +:+ pretty total +:+ ")".

(** [_render_compact.mv_to_row]: the cell of the shard column. *)
Definition shard_progress (mv : MaintenanceView) : Result string :=
  if affects_shards mv then
    let color :=
      if is_blocked mv then "red"
      else if negb (are_all_shards_done mv) then "yellow"
      else "green" in
    tgt ← not_none (shard_target_state mv);
    mret (colored
            (progress_text (ShardOperationalState.name tgt)
               (num_shards_done mv) (num_shards_total mv))
            color)
  else mret "-".

(** [_render_compact.mv_to_row]: the cell of the sequencer column. *)
Definition sequencer_progress (mv : MaintenanceView) : Result string :=
  if affects_sequencers mv then
    let color := if are_all_sequencers_done mv then "green" else "yellow" in
    tgt ← not_none (sequencer_target_state mv);
    mret (colored
            (progress_text (sequencing_state_name tgt)
               (num_sequencers_done mv) (num_sequencers_total mv))
            color)
  else mret "-".

(** The ten cells of one row of the compact table. *)
Record CompactRow : Type := {
  row_id : string;
  row_affected : string;
  row_status : string;
  row_shard_progress : string;
  row_sequencer_progress : string;
  row_priority : string;
  row_created_by : string;
  row_created_reason : string;
  row_created_on : string;
  row_expires_on : string;
}.

Definition row_cells (r : CompactRow) : list Cell :=
  CellStr <$> [row_id r; row_affected r; row_status r; row_shard_progress r;
               row_sequencer_progress r; row_priority r; row_created_by r;
               row_created_reason r; row_created_on r; row_expires_on r].

(** [_render_compact.mv_to_row] *)
Definition mv_to_row (mv : MaintenanceView) (cv : ClusterView)
  : Result CompactRow :=
  let id := group_id mv in
  let affected :=
    shorten
      (String.concat "," ((λ ni, "N" +:+ pretty ni) <$> affected_node_indexes mv))
      30 "..." in
  status_color ← _color (ProgressValue (overall_status mv));
  let status :=
    colored (MaintenanceProgress.name (overall_status mv)) status_color in
  shard_cell ← shard_progress mv;
  sequencer_cell ← sequencer_progress mv;
  let priority := priority_or_medium mv in
  let priority_str :=
    colored (MaintenancePriority.name priority) (_color_priority priority) in
  let created_by := user mv in
  let created_reason :=
    if truthy_str (reason mv)
    then shorten (default "" (reason mv)) 40 "..."
    else "-" in
  let created_on :=
    match created_on mv with
    | Some t => str_datetime t
    | None => "-"
    end in
  let expires_on :=
    match expires_on mv with
    | Some t => naturaltime t
    | None => "-"
    end in
  mret {| row_id := id; row_affected := affected; row_status := status;
          row_shard_progress := shard_cell;
          row_sequencer_progress := sequencer_cell;
          row_priority := priority_str; row_created_by := created_by;
          row_created_reason := created_reason; row_created_on := created_on;
          row_expires_on := expires_on |}.

Definition compact_headers : list string :=
  ["MNT. ID"; "AFFECTED"; "STATUS"; "SHARDS"; "SEQUENCERS"; "PRIORITY";
   "CREATED BY"; "REASON"; "CREATED AT"; "EXPIRES IN"].

(** [_render_compact] *)
Definition _render_compact (maintenance_views : list MaintenanceView)
    (cluster_view : ClusterView) : Result string :=
  rows ← mapM (λ mv, mv_to_row mv cluster_view) maintenance_views;
  mret (tabulate (row_cells <$> rows) (Some compact_headers)).

(** [_get_shard_operational_state] *)
Definition _get_shard_operational_state (mv : MaintenanceView) (shard : ShardID)
  : ShardOperationalState.t :=
  match get_shard_state mv shard with
  | Some shard_state => current_operational_state shard_state
  | None => ShardOperationalState.UNKNOWN
  end.

(** The pair of a timestamp's two renderings: [f"{t} ({naturaltime(t)})"]. *)
Definition with_naturaltime (t : datetime) : string :=
  str_datetime t +:+ " (" +:+ naturaltime t +:+ ")".

(** [_render_expanded.one.overview] *)
Definition overview (mv : MaintenanceView) (cv : ClusterView) : Result string :=
  let tbl := [("Maintenance ID", group_id mv)] in
  let priority := priority_or_medium mv in
  let tbl := tbl ++ [("Priority",
    colored (MaintenancePriority.name priority) (_color_priority priority))] in
  let tbl := tbl ++ [("Affected ",
    pretty (num_shards_total mv) +:+ " shards on " +:+
    pretty (length (affected_storage_node_ids mv)) +:+ " nodes, " +:+
    pretty (num_sequencers_total mv) +:+ " sequencers")] in
  status_color ← _color (ProgressValue (overall_status mv));
  let tbl := tbl ++ [("Status",
    colored (MaintenanceProgress.name (overall_status mv)) status_color)] in
  let tbl :=
    match last_check_impact_result mv with
    | Some result =>
        if bool_decide (overall_status mv ∈
             [MaintenanceProgress.BLOCKED_UNTIL_SAFE;
              MaintenanceProgress.UNKNOWN])
        then tbl ++ [("Impact Result",
               colored (impacts_to_string (impact_of result)) "red")]
        else tbl
    | None => tbl
    end in
  let tbl := tbl ++ [("Created By", user mv)] in
  let created_reason :=
    if truthy_str (reason mv) then default "" (reason mv) else "-" in
  let tbl := tbl ++ [("Reason", created_reason)] in
  let extras_text :=
    match extras mv with
    | [] => "-"
    | _ => String.concat newline ((λ kv, kv.1 +:+ "=" +:+ kv.2) <$> extras mv)
    end in
  let tbl := tbl ++ [("Extras", extras_text)] in
  let created_on :=
    match created_on mv with
    | Some t => with_naturaltime t
    | None => "-"
    end in
  let tbl := tbl ++ [("Created On", created_on)] in
  let expires_on :=
    match expires_on mv with
    | Some t => with_naturaltime t
    | None => "-"
    end in
  let tbl := tbl ++ [("Expires On", expires_on)] in
  let skip_safety :=
    if skip_safety_checks mv
    then colored (str_bool (skip_safety_checks mv)) "red"
    else str_bool (skip_safety_checks mv) in
  let tbl := tbl ++ [("Skip Safety Checks", skip_safety)] in
  let skip_capacity :=
    if skip_capacity_checks mv
    then colored (str_bool (skip_capacity_checks mv)) "red"
    else str_bool (skip_capacity_checks mv) in
  let tbl := tbl ++ [("Skip Capacity Checks", skip_capacity)] in
  let tbl := tbl ++ [("Allow Passive Drains",
                      str_bool (allow_passive_drains mv))] in
  let tbl := tbl ++ [("RESTORE rebuilding enforced",
                      str_bool (force_restore_rebuilding mv))] in
  let tbl := (λ row, [CellStr (row.1 +:+ ":"); CellStr row.2]) <$> tbl in
  mret (tabulate tbl None).

Definition aggregated_headers : list string :=
  ["NODE INDEX"; "NODE NAME"; "LOCATION"; "TARGET STATE"; "CURRENT STATE";
   "MAINTENANCE STATUS"; "LAST UPDATED"].

(** The current operational states of a node's shards under a maintenance,
    grouped and counted, in the order of their names. *)
Definition current_state_groups (mv : MaintenanceView) (ni : Z)
  : list (ShardOperationalState.t * nat) :=
  sorted (λ x, ShardOperationalState.name x.1)
    (Counter (_get_shard_operational_state mv <$> get_shards_by_node_index mv ni)).

(** One chip of the CURRENT STATE cell of the aggregated table. *)
Definition current_state_chip (tgt : ShardOperationalState.t)
    (group : ShardOperationalState.t * nat) : string :=
  colored (ShardOperationalState.name group.1 +:+ "(" +:+ pretty group.2 +:+ ")")
    (_color_shard_op_state group.1 tgt).

(** The maintenance statuses of a node's shards, grouped and counted. *)
Definition maintenance_status_groups (mv : MaintenanceView) (ni : Z)
  : list (MaintenanceStatus.t * nat) :=
  sorted (λ x, MaintenanceStatus.name x.1)
    (Counter (get_shard_maintenance_status mv <$> get_shards_by_node_index mv ni)).

Definition maintenance_status_chip (group : MaintenanceStatus.t * nat)
  : Result string :=
  color ← _color (StatusValue group.1);
  mret (colored (MaintenanceStatus.name group.1 +:+ "(" +:+ pretty group.2 +:+ ")")
          color).

(** The timestamps of the maintenance records of a node's shards: the
    generator handed to [min]. *)
Definition maintenance_timestamps (nv : NodeView) : list datetime :=
  omap (λ ss, last_updated_at <$> maintenance ss) (shard_states nv).

(** The LAST UPDATED cell of the aggregated table. *)
Definition aggregated_last_updated (nv : NodeView) : Result string :=
  match shard_states nv with
  | [] => mret "NEVER"
  | _ =>
      last_updated_at_time ← py_min (maintenance_timestamps nv);
      mret (with_naturaltime last_updated_at_time)
  end.

(** One row of the aggregated table: the body of the loop over
    [mv.affected_storage_node_indexes]. *)
Definition aggregated_row (mv : MaintenanceView) (cv : ClusterView) (ni : Z)
  : Result (list Cell) :=
  nv ← get_node_view cv ni;
  tgt ← not_none (shard_target_state mv);
  let target_state :=
    ShardOperationalState.name tgt +:+ "(" +:+
    pretty (length (get_shards_by_node_index mv ni)) +:+ ")" in
  let chunks := current_state_chip tgt <$> current_state_groups mv ni in
  let current_state := String.concat "," chunks in
  chunks ← mapM maintenance_status_chip (maintenance_status_groups mv ni);
  let maintenance_status := String.concat "," chunks in
  last_updated_at ← aggregated_last_updated nv;
  mret [CellInt ni; CellStr (node_name nv); cell_of_option (location nv);
        CellStr target_state; CellStr current_state;
        CellStr maintenance_status; CellStr last_updated_at].

(** [_render_expanded.one.shards.aggregated] *)
Definition aggregated (mv : MaintenanceView) (cv : ClusterView) : Result string :=
  tbl ← mapM (aggregated_row mv cv) (affected_storage_node_indexes mv);
  mret (tabulate tbl (Some aggregated_headers)).

Definition shards_table_headers : list string :=
  ["SHARD INDEX"; "CURRENT STATE"; "TARGET STATE"; "MAINTENANCE STATUS";
   "LAST UPDATED"].

(** One row of the per-shard table: the body of the loop over
    [mv.get_shards_by_node_index(ni)].  The row reads [target_state.name], so
    a record without a shard target state raises [AttributeError] here;
    nothing evaluated before that read in the loop body can raise. *)
Definition shards_table_row (mv : MaintenanceView) (shard : ShardID)
  : Result (list Cell) :=
  target_state ← not_none (shard_target_state mv);
  let cur_op_state := _get_shard_operational_state mv shard in
  let current_state :=
    colored (ShardOperationalState.name cur_op_state)
      (_color_shard_op_state cur_op_state target_state) in
  let mnt_status := get_shard_maintenance_status mv shard in
  mnt_color ← _color (StatusValue mnt_status);
  let maintenance_status :=
    colored (MaintenanceStatus.name mnt_status) mnt_color in
  let last_updated :=
    match get_shard_last_updated_at mv shard with
    | Some t => with_naturaltime t
    | None => "-"
    end in
  mret [CellInt (shard_index shard); CellStr current_state;
        CellStr (ShardOperationalState.name target_state);
        CellStr maintenance_status; CellStr last_updated].

(** [_render_expanded.one.shards.expanded.one_node.shards_table] *)
Definition shards_table (mv : MaintenanceView) (cv : ClusterView) (ni : Z)
  : Result string :=
  tbl ← mapM (shards_table_row mv) (get_shards_by_node_index mv ni);
  mret (tabulate tbl (Some shards_table_headers)).

(** [_render_expanded.one.shards.expanded.one_node] *)
Definition one_node (mv : MaintenanceView) (cv : ClusterView) (ni : Z)
  : Result string :=
  nv ← get_node_view cv ni;
  table ← shards_table mv cv ni;
  mret ("N" +:+ pretty (nv_node_index nv) +:+ " (" +:+ node_name nv +:+ "):"
        +:+ newline +:+ indent table "  ").

(** [_render_expanded.one.shards.expanded] *)
Definition expanded (mv : MaintenanceView) (cv : ClusterView) : Result string :=
  parts ← mapM (one_node mv cv) (affected_node_indexes mv);
  mret (String.concat (newline +:+ newline) parts).

(** [_render_expanded.one.shards] *)
Definition shards (mv : MaintenanceView) (cv : ClusterView)
    (expand_shards : bool) : Result (option string) :=
  if negb (affects_shards mv) then mret None
  else
    let f := if expand_shards then expanded else aggregated in
    body ← f mv cv;
    mret (Some ("Shard Maintenances:" +:+ newline +:+ indent body "  ")).

(** One row of the sequencer table: the body of the loop over
    [mv.sequencer_nodes]. *)
Definition sequencers_row (mv : MaintenanceView) (cv : ClusterView) (n : NodeID)
  : Result (list Cell) :=
  nv ← get_node_view cv (node_index n);
  target_state ← not_none (sequencer_target_state mv);
  let mnt_status := get_sequencer_maintenance_status mv n in
  seq_state ← not_none_for "state" (sequencer_state nv);
  mnt_color ← _color (StatusValue mnt_status);
  let current_state :=
    colored (sequencing_state_name (state seq_state)) mnt_color in
  let maintenance_status :=
    colored (MaintenanceStatus.name mnt_status) mnt_color in
  let last_updated :=
    match get_sequencer_last_updated_at mv n with
    | Some t => with_naturaltime t
    | None => "-"
    end in
  mret [CellInt (nv_node_index nv); CellStr (node_name nv);
        cell_of_option (location nv);
        CellStr (sequencing_state_name target_state); CellStr current_state;
        CellStr maintenance_status; CellStr last_updated].

(** [_render_expanded.one.sequencers] *)
Definition sequencers (mv : MaintenanceView) (cv : ClusterView)
  : Result (option string) :=
  if negb (affects_sequencers mv) then mret None
  else
    tbl ← mapM (sequencers_row mv cv) (sequencer_nodes mv);
    mret (Some ("Sequencer Maintenances:" +:+ newline +:+
                indent (tabulate tbl (Some aggregated_headers)) "  ")).

(** The text that opens the safety-impact block. *)
Definition impact_heading : string :=
  "Safety Check Impact:" +:+ newline +:+ newline.

(** The shards handed to the safety formatter: those of every affected node. *)
Definition impact_shards (mv : MaintenanceView) : list ShardID :=
  foldl (λ shards ni, shards ++ get_shards_by_node_index mv ni) []
    (affected_node_indexes mv).

(** [_render_expanded.one.impact] *)
Definition impact (mv : MaintenanceView) (show_safety_check_results : bool)
  : string :=
  if bool_decide (overall_status mv = MaintenanceProgress.BLOCKED_UNTIL_SAFE)
     && show_safety_check_results
  then
    let response := last_check_impact_result mv in
    let impact_string :=
      check_impact_string response (impact_shards mv) (shard_target_state mv) in
    impact_heading +:+ impact_string
  else "".

(** [filter(None, ...)] on the four sections: [None] and the empty string
    are dropped. *)
Definition truthy_sections (sections : list (option string)) : list string :=
  omap (λ s, if truthy_str s then s else None) sections.

(** The sections of one record that [_render_expanded.one] joins. *)
Definition one_sections (mv : MaintenanceView) (cv : ClusterView)
    (expand_shards show_safety_check_results : bool) : Result (list string) :=
  overview_text ← overview mv cv;
  shards_text ← shards mv cv expand_shards;
  sequencers_text ← sequencers mv cv;
  let impact_text := impact mv show_safety_check_results in
  mret (truthy_sections
          [Some overview_text; shards_text; sequencers_text; Some impact_text]).

(** [_render_expanded.one] *)
Definition one (mv : MaintenanceView) (cv : ClusterView)
    (expand_shards show_safety_check_results : bool) : Result string :=
  sections ← one_sections mv cv expand_shards show_safety_check_results;
  mret (String.concat (newline +:+ newline) sections).

(** [_render_expanded] *)
Definition _render_expanded (maintenance_views : list MaintenanceView)
    (cluster_view : ClusterView)
    (expand_shards show_safety_check_results : bool) : Result string :=
  parts ← mapM (λ mv, one mv cluster_view expand_shards
                        show_safety_check_results) maintenance_views;
  mret (String.concat (newline +:+ newline +:+ "---" +:+ newline) parts).

(** [_render_expanded_with_shards] *)
Definition _render_expanded_with_shards
    (maintenance_views : list MaintenanceView) (cluster_view : ClusterView)
  : Result string :=
  _render_expanded maintenance_views cluster_view true false.

(** [_render_expanded_with_safety_checks] *)
Definition _render_expanded_with_safety_checks
    (maintenance_views : list MaintenanceView) (cluster_view : ClusterView)
  : Result string :=
  _render_expanded maintenance_views cluster_view false true.

(** [_render]: the dictionary from the four modes to their renderer. *)
Definition _render (maintenance_views : list MaintenanceView)
    (cluster_view : ClusterView) (mode : RenderingMode) : Result string :=
  match mode with
  | COMPACT => _render_compact maintenance_views cluster_view
  | EXPANDED => _render_expanded maintenance_views cluster_view false false
  | EXPANDED_WITH_SHARDS =>
      _render_expanded_with_shards maintenance_views cluster_view
  | EXPANDED_WITH_SAFETY_CHECKS =>
      _render_expanded_with_safety_checks maintenance_views cluster_view
  end.

End Rendering.

(** ** Filtering *)

(** The keyword arguments of [_filter_maintenance_views]; every one defaults
    to [None]. *)
Module Criteria.
Record t : Type := {
  ids : option (list string);
  users : option (list string);
  node_indexes : option (list Z);
  node_names : option (list string);
  blocked : option bool;
  completed : option bool;
  in_progress : option bool;
  priority : option MaintenancePriority.t;
  include_internal_maintenances : option bool;
}.

Definition none : t :=
  {| ids := None; users := None; node_indexes := None; node_names := None;
     blocked := None; completed := None; in_progress := None;
     priority := None; include_internal_maintenances := None |}.

Definition with_include_internal (v : option bool) (c : t) : t :=
  {| ids := ids c; users := users c; node_indexes := node_indexes c;
     node_names := node_names c; blocked := blocked c;
     completed := completed c; in_progress := in_progress c;
     priority := priority c; include_internal_maintenances := v |}.
End Criteria.

(** [set(mv.affected_node_indexes).intersection(node_indexes_set)] as a truth
    value: the intersection is not empty. *)
Definition affects_some_node (node_indexes_set : gset Z) (mv : MaintenanceView)
  : Prop :=
  list_to_set (affected_node_indexes mv) ∩ node_indexes_set ≠ ∅.

Global Instance affects_some_node_dec s mv : Decision (affects_some_node s mv).
Proof. unfold affects_some_node. apply _. Defined.

(** A generator expression narrowing [mvs] when its criterion is given. *)
Definition narrow {A} (criterion : option A)
    (keep : A → MaintenanceView → bool) (mvs : list MaintenanceView)
  : list MaintenanceView :=
  match criterion with
  | Some a => List.filter (keep a) mvs
  | None => mvs
  end.

(** The node indexes of the given names: the set comprehension over
    [cv.get_node_index], evaluated inside the call. *)
Definition resolve_node_names (cv : ClusterView) (node_names : list string)
  : Result (gset Z) :=
  list_to_set <$> mapM (get_node_index cv) node_names.

(** [_filter_maintenance_views].  The function returns a chain of generator
    expressions, modelled by the list the chain yields.  The node names are
    resolved while the function runs, so that [NodeNotFoundError] is raised by
    the call itself.  [node_indexes_set] is one local variable assigned by the
    node-index branch and again by the node-name branch; both generator
    conditions read it when the chain is consumed, after the function has
    returned, hence both see its last value. *)
Definition _filter_maintenance_views (maintenance_views : list MaintenanceView)
    (cluster_view : ClusterView) (c : Criteria.t)
  : Result (list MaintenanceView) :=
  let cv := cluster_view in
  let mvs := maintenance_views in
  let mvs :=
    match Criteria.include_internal_maintenances c with
    | Some false => List.filter (λ mv, negb (is_internal mv)) mvs
    | _ => mvs
    end in
  let mvs :=
    narrow (Criteria.ids c)
      (λ ids mv, bool_decide (group_id mv ∈ (list_to_set ids : gset string)))
      mvs in
  let mvs :=
    narrow (Criteria.users c)
      (λ users mv, bool_decide (user mv ∈ (list_to_set users : gset string)))
      mvs in
  resolved ← match Criteria.node_names c with
             | Some node_names => Some <$> resolve_node_names cv node_names
             | None => mret None
             end;
  let node_indexes_set : gset Z :=
    match resolved with
    | Some s => s
    | None => list_to_set (default [] (Criteria.node_indexes c))
    end in
  let mvs :=
    narrow (Criteria.node_indexes c)
      (λ _ mv, bool_decide (affects_some_node node_indexes_set mv)) mvs in
  let mvs :=
    narrow (Criteria.node_names c)
      (λ _ mv, bool_decide (affects_some_node node_indexes_set mv)) mvs in
  let mvs :=
    narrow (Criteria.priority c)
      (λ p mv, bool_decide (priority mv = Some p)) mvs in
  let mvs :=
    narrow (Criteria.blocked c) (λ b mv, Bool.eqb (is_blocked mv) b) mvs in
  let mvs :=
    narrow (Criteria.completed c) (λ b mv, Bool.eqb (is_completed mv) b) mvs in
  let mvs :=
    narrow (Criteria.in_progress c) (λ b mv, Bool.eqb (is_in_progress mv) b) mvs in
  mret mvs.

(** ** The command *)

Section Command.
Context `{TextPrimitives}.

Definition no_match_message : string :=
  colored "No maintenances matching given criteria" "red".

(** [MaintenanceCommand._select_and_render], on the cluster view the admin
    client returned.  The method has no parameter for internal maintenances
    and passes [include_internal_maintenances=None]. *)
Definition _select_and_render (cv : ClusterView) (c : Criteria.t)
    (rendering_mode : option RenderingMode) : Result string :=
  mvs ← _filter_maintenance_views (get_all_maintenance_views cv) cv
          (Criteria.with_include_internal None c);
  if bool_decide (length mvs = 0%nat) then mret no_match_message
  else
    match rendering_mode with
    | Some mode => _render mvs cv mode
    | None => Raise (KeyError "None")
    end.

End Command.

(** The record [mv] with its internal flag set to [b]: the same maintenance
    seen as a system-generated or as a user-requested one. *)
Definition mark_internal (b : bool) (mv : MaintenanceView) : MaintenanceView :=
  {| group_id := group_id mv;
     affected_node_indexes := affected_node_indexes mv;
     affected_storage_node_indexes := affected_storage_node_indexes mv;
     affected_storage_node_ids := affected_storage_node_ids mv;
     affects_shards := affects_shards mv;
     affects_sequencers := affects_sequencers mv;
     shard_target_state := shard_target_state mv;
     sequencer_target_state := sequencer_target_state mv;
     num_shards_done := num_shards_done mv;
     num_shards_total := num_shards_total mv;
     are_all_shards_done := are_all_shards_done mv;
     num_sequencers_done := num_sequencers_done mv;
     num_sequencers_total := num_sequencers_total mv;
     are_all_sequencers_done := are_all_sequencers_done mv;
     overall_status := overall_status mv;
     priority := priority mv;
     user := user mv;
     reason := reason mv;
     extras := extras mv;
     created_on := created_on mv;
     expires_on := expires_on mv;
     skip_safety_checks := skip_safety_checks mv;
     skip_capacity_checks := skip_capacity_checks mv;
     allow_passive_drains := allow_passive_drains mv;
     force_restore_rebuilding := force_restore_rebuilding mv;
     is_internal := b;
     is_blocked := is_blocked mv;
     is_completed := is_completed mv;
     is_in_progress := is_in_progress mv;
     last_check_impact_result := last_check_impact_result mv;
     sequencer_nodes := sequencer_nodes mv;
     get_shards_by_node_index := get_shards_by_node_index mv;
     get_shard_state := get_shard_state mv;
     get_shard_maintenance_status := get_shard_maintenance_status mv;
     get_shard_last_updated_at := get_shard_last_updated_at mv;
     get_sequencer_maintenance_status := get_sequencer_maintenance_status mv;
     get_sequencer_last_updated_at := get_sequencer_last_updated_at mv |}.

(** ** A small cluster to run the definitions on *)

Module Sample.

(** Plain stand-ins for the text primitives. *)
Definition cell_text (c : Cell) : string :=
  match c with
  | CellStr s => s
  | CellInt n => pretty n
  | CellNone => ""
  end.

Definition line (cells : list string) : string := String.concat "  " cells.

#[local] Instance plain : TextPrimitives := {|
  colored text color := "[" +:+ color +:+ "]" +:+ text;
  tabulate rows headers :=
    String.concat newline
      (match headers with Some h => [line h] | None => [] end ++
       ((λ row, line (cell_text <$> row)) <$> rows));
  shorten text width placeholder := text;
  indent text prefix := prefix +:+ text;
  naturaltime t := pretty t +:+ " seconds ago";
  str_datetime t := pretty t;
  impacts_to_string impacts :=
    String.concat ", " (operation_impact_name <$> impacts);
  check_impact_string response shards target :=
    match response with
    | Some r => String.concat ", " (operation_impact_name <$> impact_of r)
    | None => "no response"
    end;
|}.

Definition shard (ni si : Z) : ShardID :=
  {| node := {| node_index := ni |}; shard_index := si |}.

(** Node 0 holds two shards, one drained at time 40 and one migrating since
    time 25; node 1 holds one shard that no maintenance has touched. *)
Definition node0 : NodeView :=
  {| nv_node_index := 0; node_name := "node0"; location := Some "rg1.dc1";
     shard_states :=
       [ {| current_operational_state := ShardOperationalState.DRAINED;
            maintenance :=
              Some {| status := MaintenanceStatus.COMPLETED;
                      last_updated_at := 40 |} |};
         {| current_operational_state := ShardOperationalState.MIGRATING_DATA;
            maintenance :=
              Some {| status := MaintenanceStatus.Other "STARTED";
                      last_updated_at := 25 |} |} ];
     sequencer_state := Some {| state := {| sequencing_state_name := "ENABLED" |} |} |}.

Definition node1 : NodeView :=
  {| nv_node_index := 1; node_name := "node1"; location := None;
     shard_states :=
       [ {| current_operational_state := ShardOperationalState.Other "ENABLED";
            maintenance := None |} ];
     sequencer_state := None |}.

Definition shard_state_in (nv : NodeView) (s : ShardID) : option ShardState :=
  shard_states nv !! Z.to_nat (shard_index s).

(** A blocked drain of the shards of node [ni], whose view is [nv]. *)
Definition drain (id : string) (nv : NodeView) (internal : bool)
  : MaintenanceView :=
  let ni := nv_node_index nv in
  {| group_id := id;
     affected_node_indexes := [ni];
     affected_storage_node_indexes := [ni];
     affected_storage_node_ids := [ {| node_index := ni |} ];
     affects_shards := true;
     affects_sequencers := false;
     shard_target_state := Some ShardOperationalState.DRAINED;
     sequencer_target_state := None;
     num_shards_done := 1;
     num_shards_total := Z.of_nat (length (shard_states nv));
     are_all_shards_done := false;
     num_sequencers_done := 0;
     num_sequencers_total := 0;
     are_all_sequencers_done := true;
     overall_status := MaintenanceProgress.BLOCKED_UNTIL_SAFE;
     priority := None;
     user := "alice";
     reason := Some "disk swap";
     extras := [];
     created_on := Some 10;
     expires_on := None;
     skip_safety_checks := false;
     skip_capacity_checks := false;
     allow_passive_drains := false;
     force_restore_rebuilding := false;
     is_internal := internal;
     is_blocked := true;
     is_completed := false;
     is_in_progress := true;
     last_check_impact_result :=
       Some {| impact_of := [ {| operation_impact_name := "REBUILDING_STALL" |} ] |};
     sequencer_nodes := [];
     get_shards_by_node_index := λ i,
       if bool_decide (i = ni)
       then shard ni <$> (Z.of_nat <$> seq 0 (length (shard_states nv)))
       else [];
     get_shard_state := shard_state_in nv;
     get_shard_maintenance_status := λ s,
       default (MaintenanceStatus.Other "NOT_STARTED")
         (status <$> (shard_state_in nv s ≫= maintenance));
     get_shard_last_updated_at := λ s,
       last_updated_at <$> (shard_state_in nv s ≫= maintenance);
     get_sequencer_maintenance_status := λ _, MaintenanceStatus.COMPLETED;
     get_sequencer_last_updated_at := λ _, None |}.

Definition mv0 : MaintenanceView := drain "mnt-0" node0 false.
Definition mv1 : MaintenanceView := drain "mnt-1" node1 true.

(** The lookups of a snapshot over the nodes [nvs]. *)
Definition node_view_in (nvs : list NodeView) (ni : Z) : Result NodeView :=
  match List.find (λ nv, bool_decide (nv_node_index nv = ni)) nvs with
  | Some nv => Ok nv
  | None => Raise NodeNotFoundError
  end.

Definition node_index_in (nvs : list NodeView) (name : string) : Result Z :=
  match List.find (λ nv, bool_decide (node_name nv = name)) nvs with
  | Some nv => Ok (nv_node_index nv)
  | None => Raise NodeNotFoundError
  end.

Definition cluster : ClusterView :=
  {| get_node_view := node_view_in [node0; node1];
     get_node_index := node_index_in [node0; node1];
     get_all_maintenance_views := [mv0; mv1] |}.

(** The same cluster without maintenances. *)
Definition idle_cluster : ClusterView :=
  {| get_node_view := node_view_in [node0; node1];
     get_node_index := node_index_in [node0; node1];
     get_all_maintenance_views := [] |}.

End Sample.

(** ** Parsing of the command arguments *)

(** [str.upper] and [str.lower], which follow Unicode: taken as given. *)
Class CaseMapping : Type := {
  str_upper : string → string;
  str_lower : string → string;
}.

Section Parsing.
Context `{CaseMapping}.

(** [_parse_shard_target_state] *)
Definition _parse_shard_target_state (tgt_state : string)
  : Result ShardOperationalState.t :=
  if decide (str_lower tgt_state = "may-disappear")
  then Ok ShardOperationalState.MAY_DISAPPEAR
  else if decide (str_lower tgt_state = "drained")
  then Ok ShardOperationalState.DRAINED
  else Raise (ValueError ("Can't parse shard_target_state: " +:+ tgt_state)).

(** The members of [MaintenancePriority], which [MaintenancePriority[...]]
    looks a name up in. *)
Definition priority_members : list MaintenancePriority.t :=
  [MaintenancePriority.IMMINENT; MaintenancePriority.HIGH;
   MaintenancePriority.MEDIUM; MaintenancePriority.LOW].

(** [_parse_priority]: the [KeyError] of the lookup is caught and
    [ValueError] raised in its place. *)
Definition _parse_priority (priority : option string)
  : Result (option MaintenancePriority.t) :=
  match priority with
  | None => Ok None
  | Some priority =>
      let upper_priority := str_upper priority in
      match List.find
              (λ v, bool_decide (MaintenancePriority.name v = upper_priority))
              priority_members with
      | Some v => Ok (Some v)
      | None => Raise (ValueError ("Can't parse priority: " +:+ priority))
      end
  end.

End Parsing.

(** ** The commands *)

(** What a command does to the outside: a line it prints, a question it asks
    the user, a removal it sends to the admin server. *)
Inductive Event : Type :=
  | Printed (text : string)
  | Asked (question : string)
  | RemoveRequested (group_ids : list string) (log_user log_reason : string).

(** The collaborators of the [remove] command. *)
Class Shell : Type := {
  (** [getpass.getuser()] *)
  getuser : string;
  (** [ldshell.helpers.confirm_prompt]: the user's answer to a question *)
  confirm_prompt : string → bool;
  (** [ldops.maintenance.remove_maintenances]: the group ids of the
      maintenances the server reports removed, or its failure *)
  remove_maintenances : list string → string → string → Result (list string);
  (** a list of strings inside an f-string *)
  repr_strs : list string → string;
}.

Section Commands.
Context `{TextPrimitives} `{CaseMapping} `{Shell}.

(** [MaintenanceCommand.list_maintenances]: the text it prints. *)
Definition list_maintenances (cv : ClusterView)
    (ids users : option (list string)) (node_indexes : option (list Z))
    (node_names : option (list string)) (blocked completed in_progress : option bool)
    (priority : option string) : Result string :=
  priority ← _parse_priority priority;
  _select_and_render cv
    {| Criteria.ids := ids; Criteria.users := users;
       Criteria.node_indexes := node_indexes;
       Criteria.node_names := node_names; Criteria.blocked := blocked;
       Criteria.completed := completed; Criteria.in_progress := in_progress;
       Criteria.priority := priority;
       Criteria.include_internal_maintenances := None |}
    (Some COMPACT).

(** [MaintenanceCommand.show]: the text it prints. *)
Definition show (cv : ClusterView)
    (ids users : option (list string)) (node_indexes : option (list Z))
    (node_names : option (list string)) (blocked completed in_progress : option bool)
    (expand_shards : option bool) (show_safety_check_results : bool)
  : Result string :=
  let rendering_mode := EXPANDED in
  let rendering_mode :=
    if default false expand_shards then EXPANDED_WITH_SHARDS
    else rendering_mode in
  let rendering_mode :=
    if show_safety_check_results then EXPANDED_WITH_SAFETY_CHECKS
    else rendering_mode in
  _select_and_render cv
    {| Criteria.ids := ids; Criteria.users := users;
       Criteria.node_indexes := node_indexes;
       Criteria.node_names := node_names; Criteria.blocked := blocked;
       Criteria.completed := completed; Criteria.in_progress := in_progress;
       Criteria.priority := None;
       Criteria.include_internal_maintenances := None |}
    (Some rendering_mode).

Definition remove_nothing_message : string :=
  colored "No maintenances matching given criteria" "white".

Definition remove_nothing_hint : string :=
  colored
    ("No maintenances matching given criteria, did you " +:+
     "mean to target internal maintenances?" +:+ newline +:+ "Use " +:+
     "`include-internal-maintenances` for this.")
    "white".

Definition remove_note : string :=
  colored
    ("NOTE: Your query might have matched internal maintenances." +:+ newline +:+
     "We have excluded them from your remove request for " +:+
     "safety. If you really need to remove internal maintenances," +:+
     " You need to to set `include-internal-maintenances to " +:+
     "True`")
    "yellow".

Definition remove_warning : string :=
  colored
    (newline +:+ newline +:+
     "WARNING: You might be deleting internal maintenances." +:+ newline +:+
     " This is a DANGEROUS operation. Only proceed if you are " +:+
     "absolutely sure.")
    "red".

(** [MaintenanceCommand.remove], on the cluster view the admin client
    returned: what the command did, in order, and how it ended.  An exception
    leaves the events that came before it. *)
Definition remove (cv : ClusterView) (reason : string)
    (ids users : option (list string)) (node_indexes : option (list Z))
    (node_names : option (list string)) (blocked completed in_progress : option bool)
    (log_user : option string) (priority : option string)
    (include_internal_maintenances : bool) : list Event * Result unit :=
  let all_maintenances := get_all_maintenance_views cv in
  match _parse_priority priority with
  | Raise e => ([], Raise e)
  | Ok priority =>
  match _filter_maintenance_views all_maintenances cv
          {| Criteria.ids := ids; Criteria.users := users;
             Criteria.node_indexes := node_indexes;
             Criteria.node_names := node_names; Criteria.blocked := blocked;
             Criteria.completed := completed;
             Criteria.in_progress := in_progress;
             Criteria.priority := priority;
             Criteria.include_internal_maintenances :=
               Some include_internal_maintenances |} with
  | Raise e => ([], Raise e)
  | Ok mvs =>
  if bool_decide (length mvs = 0%nat) && include_internal_maintenances
  then ([Printed remove_nothing_message], Ok ())
  else if bool_decide (length mvs = 0%nat)
  then ([Printed remove_nothing_hint], Ok ())
  else
    let events :=
      [Printed ("You are going to remove following maintenances:" +:+ newline)] in
    match _render_expanded mvs cv false false with
    | Raise e => (events, Raise e)
    | Ok text =>
    let events := events ++ [Printed text] in
    let notice := if negb include_internal_maintenances
                  then remove_note else remove_warning in
    let question := if negb include_internal_maintenances
                    then "Continue?" else "Take the RISK?" in
    let events := events ++ [Printed notice; Asked question] in
    if negb (confirm_prompt question) then (events, Ok ())
    else
      let group_ids := group_id <$> mvs in
      let events :=
        events ++ [Printed ("Removing maintenances " +:+ repr_strs group_ids)] in
      let log_user :=
        if truthy_str log_user then default "" log_user else getuser in
      let events := events ++ [RemoveRequested group_ids log_user reason] in
      match remove_maintenances group_ids log_user reason with
      | Raise e => (events, Raise e)
      | Ok removed =>
          (events ++ [Printed ("Removed maintenances " +:+ repr_strs removed)],
           Ok ())
      end
    end
  end
  end.

End Commands.

(** ** The filter as one pass *)

(** The set both node criteria are tested against once the chain is
    consumed. *)
Definition node_set_of (cv : ClusterView) (c : Criteria.t)
  : Result (gset Z) :=
  match Criteria.node_names c with
  | Some node_names => resolve_node_names cv node_names
  | None => Ok (list_to_set (default [] (Criteria.node_indexes c)))
  end.

(** A criterion that is not given lets every record through. *)
Definition criterion {A} (given : option A) (test : A → bool) : bool :=
  match given with
  | Some a => test a
  | None => true
  end.

(** The conjunction of the criteria given, on one record. *)
Definition passes (c : Criteria.t) (node_indexes_set : gset Z)
    (mv : MaintenanceView) : bool :=
  criterion (Criteria.include_internal_maintenances c)
    (λ include, include || negb (is_internal mv))
  && criterion (Criteria.ids c)
       (λ ids, bool_decide (group_id mv ∈ (list_to_set ids : gset string)))
  && criterion (Criteria.users c)
       (λ users, bool_decide (user mv ∈ (list_to_set users : gset string)))
  && criterion (Criteria.node_indexes c)
       (λ _, bool_decide (affects_some_node node_indexes_set mv))
  && criterion (Criteria.node_names c)
       (λ _, bool_decide (affects_some_node node_indexes_set mv))
  && criterion (Criteria.priority c) (λ p, bool_decide (priority mv = Some p))
  && criterion (Criteria.blocked c) (λ b, Bool.eqb (is_blocked mv) b)
  && criterion (Criteria.completed c) (λ b, Bool.eqb (is_completed mv) b)
  && criterion (Criteria.in_progress c) (λ b, Bool.eqb (is_in_progress mv) b).

(** The criteria [c] with another [node_indexes]. *)
Definition with_node_indexes (v : option (list Z)) (c : Criteria.t)
  : Criteria.t :=
  {| Criteria.ids := Criteria.ids c; Criteria.users := Criteria.users c;
     Criteria.node_indexes := v;
     Criteria.node_names := Criteria.node_names c;
     Criteria.blocked := Criteria.blocked c;
     Criteria.completed := Criteria.completed c;
     Criteria.in_progress := Criteria.in_progress c;
     Criteria.priority := Criteria.priority c;
     Criteria.include_internal_maintenances :=
       Criteria.include_internal_maintenances c |}.

(** The data-model invariant the renderers rely on: a record that affects
    shards names a shard target state, and likewise for sequencers. *)
Definition targets_present (mv : MaintenanceView) : Prop :=
  (affects_shards mv = true → is_Some (shard_target_state mv))
  ∧ (affects_sequencers mv = true → is_Some (sequencer_target_state mv)).

(** ** Stand-ins for the shell, to run the commands on *)

Module SampleShell.

Definition upper_char (ch : ascii) : ascii :=
  let n := nat_of_ascii ch in
  if bool_decide (97 ≤ n ≤ 122)%nat then ascii_of_nat (n - 32) else ch.

Definition lower_char (ch : ascii) : ascii :=
  let n := nat_of_ascii ch in
  if bool_decide (65 ≤ n ≤ 90)%nat then ascii_of_nat (n + 32) else ch.

Fixpoint map_chars (f : ascii → ascii) (s : string) : string :=
  match s with
  | EmptyString => EmptyString
  | String ch s' => String (f ch) (map_chars f s')
  end.

(** The case mappings on ASCII text. *)
#[local] Instance ascii_case : CaseMapping := {|
  str_upper := map_chars upper_char;
  str_lower := map_chars lower_char;
|}.

(** A user who answers yes, and a server that removes what it is asked to. *)
#[local] Instance obliging : Shell := {|
  getuser := "operator";
  confirm_prompt question := true;
  remove_maintenances group_ids log_user log_reason := Ok group_ids;
  repr_strs ids := "[" +:+ String.concat ", " ids +:+ "]";
|}.

(** A user who answers no. *)
#[local] Instance declining : Shell := {|
  getuser := "operator";
  confirm_prompt question := false;
  remove_maintenances group_ids log_user log_reason := Ok group_ids;
  repr_strs ids := "[" +:+ String.concat ", " ids +:+ "]";
|}.

End SampleShell.

(** ** More records to run the definitions on *)

Module SampleMore.

(** Node 0 with its two shards listed the other way round. *)
Definition node0_reversed : NodeView :=
  {| nv_node_index := 0; node_name := "node0"; location := Some "rg1.dc1";
     shard_states := reverse (shard_states Sample.node0);
     sequencer_state := sequencer_state Sample.node0 |}.

Definition mv0_reversed : MaintenanceView :=
  Sample.drain "mnt-0" node0_reversed false.

(** A node the sample cluster does not know, and a drain of it. *)
Definition node7 : NodeView :=
  {| nv_node_index := 7; node_name := "node7"; location := None;
     shard_states := []; sequencer_state := None |}.

Definition mv7 : MaintenanceView := Sample.drain "mnt-7" node7 false.

(** The cluster with the maintenance of the unknown node. *)
Definition cluster7 : ClusterView :=
  {| get_node_view := get_node_view Sample.cluster;
     get_node_index := get_node_index Sample.cluster;
     get_all_maintenance_views := [Sample.mv0; mv7] |}.

(** A maintenance that affects neither shards nor sequencers. *)
Definition mv9 : MaintenanceView :=
  {| group_id := "mnt-9";
     affected_node_indexes := affected_node_indexes Sample.mv0;
     affected_storage_node_indexes := [];
     affected_storage_node_ids := [];
     affects_shards := false;
     affects_sequencers := affects_sequencers Sample.mv0;
     shard_target_state := None;
     sequencer_target_state := sequencer_target_state Sample.mv0;
     num_shards_done := 0;
     num_shards_total := 0;
     are_all_shards_done := are_all_shards_done Sample.mv0;
     num_sequencers_done := num_sequencers_done Sample.mv0;
     num_sequencers_total := num_sequencers_total Sample.mv0;
     are_all_sequencers_done := are_all_sequencers_done Sample.mv0;
     overall_status := overall_status Sample.mv0;
     priority := priority Sample.mv0;
     user := user Sample.mv0;
     reason := reason Sample.mv0;
     extras := extras Sample.mv0;
     created_on := created_on Sample.mv0;
     expires_on := expires_on Sample.mv0;
     skip_safety_checks := skip_safety_checks Sample.mv0;
     skip_capacity_checks := skip_capacity_checks Sample.mv0;
     allow_passive_drains := allow_passive_drains Sample.mv0;
     force_restore_rebuilding := force_restore_rebuilding Sample.mv0;
     is_internal := is_internal Sample.mv0;
     is_blocked := is_blocked Sample.mv0;
     is_completed := is_completed Sample.mv0;
     is_in_progress := is_in_progress Sample.mv0;
     last_check_impact_result := last_check_impact_result Sample.mv0;
     sequencer_nodes := sequencer_nodes Sample.mv0;
     get_shards_by_node_index := get_shards_by_node_index Sample.mv0;
     get_shard_state := get_shard_state Sample.mv0;
     get_shard_maintenance_status := get_shard_maintenance_status Sample.mv0;
     get_shard_last_updated_at := get_shard_last_updated_at Sample.mv0;
     get_sequencer_maintenance_status := get_sequencer_maintenance_status Sample.mv0;
     get_sequencer_last_updated_at := get_sequencer_last_updated_at Sample.mv0 |}.

End SampleMore.

(** * Properties *)

(** ** The error monad *)

Ltac result_simpl :=
  cbn [mbind mret fmap Result_bind Result_ret Result_fmap].

Lemma bind_Ok {A B} (m : Result A) (f : A → Result B) (b : B) :
  m ≫= f = Ok b ↔ ∃ a, m = Ok a ∧ f a = Ok b.
Proof.
  destruct m as [a|e]; simpl.
  - split; [intros Hf; exists a; auto | intros (a' & Ha & Hf); congruence].
  - split; [discriminate | intros (a' & Ha & _); discriminate].
Qed.

Lemma fmap_Ok {A B} (f : A → B) (m : Result A) (b : B) :
  f <$> m = Ok b ↔ ∃ a, m = Ok a ∧ b = f a.
Proof.
  destruct m as [a|e]; simpl.
  - split; [intros [= <-]; eauto | intros (a' & [= <-] & ->); reflexivity].
  - split; [discriminate | intros (a' & Ha & _); discriminate].
Qed.

Lemma is_Ok_bind_mret {A B} (m : Result A) (g : A → B) :
  is_Ok (m ≫= λ a, mret (g a)) ↔ is_Ok m.
Proof. by destruct m. Qed.

Lemma is_Ok_fmap {A B} (g : A → B) (m : Result A) :
  is_Ok (g <$> m) ↔ is_Ok m.
Proof. by destruct m. Qed.

Lemma mapM_Ok_total {A B} (f : A → Result B) (g : A → B) (l : list A) :
  (∀ x, x ∈ l → f x = Ok (g x)) → mapM f l = Ok (g <$> l).
Proof.
  induction l as [|x l IH]; intros Hf; simpl; [reflexivity|].
  rewrite (Hf x) by apply list_elem_of_here. simpl.
  rewrite IH; [reflexivity|].
  intros y Hy. apply Hf. by apply list_elem_of_further.
Qed.

(** ** C1: state satisfaction *)

(** C1. [_satisfy_shard_op_state cur tgt] is true exactly when the target is
    MAY_DISAPPEAR and the current state is one of MAY_DISAPPEAR, DRAINED,
    PROVISIONING, MIGRATING_DATA, or the target is DRAINED and the current
    state is DRAINED; in every other case it is false. *)
Theorem satisfy_shard_op_state_iff (cur tgt : ShardOperationalState.t) :
  _satisfy_shard_op_state cur tgt = true ↔
    (tgt = ShardOperationalState.MAY_DISAPPEAR ∧
     (cur = ShardOperationalState.MAY_DISAPPEAR ∨
      cur = ShardOperationalState.DRAINED ∨
      cur = ShardOperationalState.PROVISIONING ∨
      cur = ShardOperationalState.MIGRATING_DATA))
    ∨ (tgt = ShardOperationalState.DRAINED ∧
       cur = ShardOperationalState.DRAINED).
Proof.
  unfold _satisfy_shard_op_state.
  destruct (decide (tgt = ShardOperationalState.MAY_DISAPPEAR)) as [->|Hmd].
  - case_bool_decide as Hin; rewrite !elem_of_cons, elem_of_nil in Hin.
    + split; [intros _; left; split; [reflexivity|tauto] | reflexivity].
    + split; [discriminate|].
      intros [[_ Hcur]|[Htgt _]]; [tauto|discriminate].
  - destruct (decide (tgt = ShardOperationalState.DRAINED)) as [->|Hdr].
    + destruct (decide (cur = ShardOperationalState.DRAINED)) as [->|Hcur].
      * split; [intros _; right; auto | reflexivity].
      * split; [discriminate|]. intros [[Htgt _]|[_ Hc]]; congruence.
    + split; [discriminate|]. intros [[Htgt _]|[Htgt _]]; congruence.
Qed.

(** The same predicate as a table over the named members. *)
Example satisfy_drained_target_migrating :
  _satisfy_shard_op_state ShardOperationalState.MIGRATING_DATA
    ShardOperationalState.DRAINED = false.
Proof. reflexivity. Qed.

Example satisfy_may_disappear_target_provisioning :
  _satisfy_shard_op_state ShardOperationalState.PROVISIONING
    ShardOperationalState.MAY_DISAPPEAR = true.
Proof. reflexivity. Qed.

(** ** C2: severity classification *)

(** [_color] is written for the two status classes, and every call hands it an
    overall status or a maintenance status; its dictionary has no entry for
    the priority class, whose values go to [_color_priority]. *)
Example color_has_no_priority_entry :
  _color (PriorityValue MaintenancePriority.HIGH)
    = Raise (KeyError "MaintenancePriority").
Proof. reflexivity. Qed.

(** C2. The severity classifiers are total on the values they are called
    with.  For every overall progress and for every maintenance status
    [_color] returns exactly one colour and never raises, the colour of the
    classifier of that kind; a maintenance status the classifier does not name
    falls to its [else] branch, yellow.  For every priority [_color_priority]
    returns exactly one colour, the default white when no branch applies, as
    for MEDIUM. *)
Theorem color_total_per_kind :
  (∀ p, _color (ProgressValue p) = Ok (_color_maintenance_overall_status p)
        ∧ _color_maintenance_overall_status p ∈ ["green"; "red"; "yellow"; "white"])
  ∧ (∀ s, _color (StatusValue s) = Ok (_color_maintenance_status s)
          ∧ _color_maintenance_status s ∈ ["red"; "green"; "yellow"])
  ∧ (∀ member,
       _color (StatusValue (MaintenanceStatus.Other member)) = Ok "yellow")
  ∧ (∀ pr, _color_priority pr ∈ ["magenta"; "red"; "blue"; "white"])
  ∧ _color_priority MaintenancePriority.MEDIUM = "white".
Proof.
  split; [|split; [|split; [|split]]]; try reflexivity.
  - intros p. split; [reflexivity|]. destruct p; vm_compute; repeat constructor.
  - intros s. split; [reflexivity|]. destruct s; vm_compute; repeat constructor.
  - intros pr. destruct pr; vm_compute; repeat constructor.
Qed.

(** ** C6, C7, C8: filtering *)

Lemma narrow_fmap {A} (criterion : option A)
    (keep : A → MaintenanceView → bool) (g : MaintenanceView → MaintenanceView)
    (mvs : list MaintenanceView) :
  (∀ a mv, keep a (g mv) = keep a mv) →
  narrow criterion keep (g <$> mvs) = g <$> narrow criterion keep mvs.
Proof.
  intros Hkeep. destruct criterion as [a|]; simpl; [|reflexivity].
  induction mvs as [|mv mvs IH]; [reflexivity|].
  rewrite fmap_cons. cbn [List.filter]. rewrite Hkeep, IH.
  by destruct (keep a mv).
Qed.

Lemma narrow_elem_of {A} (criterion : option A)
    (keep : A → MaintenanceView → bool) (mvs : list MaintenanceView) mv :
  mv ∈ narrow criterion keep mvs → mv ∈ mvs.
Proof.
  destruct criterion as [a|]; simpl; [|auto].
  rewrite !list_elem_of_In, filter_In. tauto.
Qed.

(** C6. With every criterion absent the filter returns its input: the same
    records in the same order, the internal ones included. *)
Theorem filter_no_criteria_identity (mvs : list MaintenanceView)
    (cv : ClusterView) :
  _filter_maintenance_views mvs cv Criteria.none = Ok mvs.
Proof. reflexivity. Qed.

(** Every record the filter yields was in the input, after the internal
    records were dropped when that was asked for. *)
Lemma filter_yields_from_input (mvs : list MaintenanceView) cv c out mv :
  _filter_maintenance_views mvs cv c = Ok out →
  mv ∈ out →
  mv ∈ match Criteria.include_internal_maintenances c with
       | Some false => List.filter (λ mv, negb (is_internal mv)) mvs
       | _ => mvs
       end.
Proof.
  unfold _filter_maintenance_views. intros Hout Hmv.
  apply bind_Ok in Hout as (resolved & _ & [= <-]).
  by repeat apply narrow_elem_of in Hmv.
Qed.

(** The internal flags of the records have no part in the filter unless
    [include_internal_maintenances] is [False]. *)
Lemma filter_ignores_internal_flag (mvs : list MaintenanceView) cv c b :
  Criteria.include_internal_maintenances c ≠ Some false →
  _filter_maintenance_views (mark_internal b <$> mvs) cv c
    = fmap (M:=list) (mark_internal b)
                  <$> _filter_maintenance_views mvs cv c.
Proof.
  intros Hinc. unfold _filter_maintenance_views.
  assert (match Criteria.include_internal_maintenances c with
          | Some false => List.filter (λ mv, negb (is_internal mv))
                            (mark_internal b <$> mvs)
          | _ => mark_internal b <$> mvs
          end = mark_internal b <$>
          match Criteria.include_internal_maintenances c with
          | Some false => mvs
          | _ => mvs
          end) as ->.
  { by destruct (Criteria.include_internal_maintenances c) as [[|]|]. }
  assert (match Criteria.include_internal_maintenances c with
          | Some false => List.filter (λ mv, negb (is_internal mv)) mvs
          | _ => mvs
          end = match Criteria.include_internal_maintenances c with
                | Some false => mvs
                | _ => mvs
                end) as ->.
  { by destruct (Criteria.include_internal_maintenances c) as [[|]|]. }
  destruct (match Criteria.node_names c with
            | Some node_names => Some <$> resolve_node_names cv node_names
            | None => mret None
            end) as [resolved|e]; [|reflexivity].
  simpl. f_equal. by rewrite !narrow_fmap.
Qed.

(** C7. With [include_internal_maintenances=False] the filter is the filter
    without that criterion run on the records that are not internal, so no
    internal record is yielded.  With the criterion unset or true nothing is
    filtered on the internal flag: the result is the one obtained with the
    criterion unset, and it follows the records whatever their flags are. *)
Theorem filter_internal_visibility (mvs : list MaintenanceView)
    (cv : ClusterView) (c : Criteria.t) :
  (Criteria.include_internal_maintenances c = Some false →
     _filter_maintenance_views mvs cv c
       = _filter_maintenance_views
           (List.filter (λ mv, negb (is_internal mv)) mvs) cv
           (Criteria.with_include_internal None c)
     ∧ ∀ out mv, _filter_maintenance_views mvs cv c = Ok out →
                 mv ∈ out → is_internal mv = false)
  ∧ (Criteria.include_internal_maintenances c ≠ Some false →
       _filter_maintenance_views mvs cv c
         = _filter_maintenance_views mvs cv
             (Criteria.with_include_internal None c)
       ∧ ∀ b, _filter_maintenance_views (mark_internal b <$> mvs) cv c
              = fmap (M:=list) (mark_internal b)
                  <$> _filter_maintenance_views mvs cv c).
Proof.
  split.
  - intros Hinc. split.
    + destruct c; simpl in Hinc; subst. reflexivity.
    + intros out mv Hout Hmv.
      pose proof (filter_yields_from_input _ _ _ _ _ Hout Hmv) as Hin.
      rewrite Hinc in Hin.
      apply list_elem_of_In, filter_In in Hin as [_ Hneg].
      by apply negb_true_iff in Hneg.
  - intros Hinc. split; [|intros b; by apply filter_ignores_internal_flag].
    destruct c as [? ? ? ? ? ? ? ? [[|]|]]; simpl in Hinc;
      [reflexivity | congruence | reflexivity].
Qed.

(** C7 on the sample cluster: the internal maintenance [mnt-1] is dropped
    when asked for and kept otherwise. *)
Lemma filter_internal_visibility_sample :
  let hide := Criteria.with_include_internal (Some false) Criteria.none in
  Criteria.include_internal_maintenances hide = Some false
  ∧ _filter_maintenance_views [Sample.mv0; Sample.mv1] Sample.cluster hide
      = Ok [Sample.mv0]
  ∧ (∀ mv, mv ∈ [Sample.mv0] → is_internal mv = false)
  ∧ Criteria.include_internal_maintenances Criteria.none ≠ Some false
  ∧ _filter_maintenance_views [Sample.mv0; Sample.mv1] Sample.cluster
      Criteria.none = Ok [Sample.mv0; Sample.mv1].
Proof.
  intros hide.
  destruct (filter_internal_visibility [Sample.mv0; Sample.mv1]
              Sample.cluster hide) as [Hfalse _].
  destruct (Hfalse eq_refl) as [Heq Hout].
  destruct (filter_internal_visibility [Sample.mv0; Sample.mv1]
              Sample.cluster Criteria.none) as [_ Hnone].
  destruct (Hnone ltac:(discriminate)) as [Heq' _].
  split; [reflexivity|]. split; [rewrite Heq; reflexivity|]. split.
  { intros mv Hmv. apply (Hout [Sample.mv0] mv); [|exact Hmv].
    rewrite Heq. reflexivity. }
  split; [discriminate|]. rewrite Heq'. reflexivity.
Defined.

Lemma mapM_is_Ok {A B} (f : A → Result B) (l : list A) :
  (∀ x, x ∈ l → is_Ok (f x)) → ∃ k, mapM f l = Ok k.
Proof.
  induction l as [|x l IH]; intros Hf; simpl; [by eexists|].
  pose proof (Hf x (list_elem_of_here _ _)) as Hx.
  destruct (f x) as [b|e]; [|contradiction]. simpl.
  destruct IH as [k ->]; [|by eexists].
  intros y Hy. apply Hf. by apply list_elem_of_further.
Qed.

(** The first failure in the list decides [mapM]. *)
Lemma mapM_Raise_first {A B} (f : A → Result B) (e : Exception)
    (pre : list A) (x : A) (post : list A) :
  (∀ y, y ∈ pre → is_Ok (f y)) →
  f x = Raise e →
  mapM f (pre ++ x :: post) = Raise e.
Proof.
  intros Hpre Hx. induction pre as [|y pre IH]; simpl.
  - by rewrite Hx.
  - pose proof (Hpre y (list_elem_of_here _ _)) as Hy.
    destruct (f y) as [b|e']; [|contradiction]. simpl.
    rewrite IH; [reflexivity|].
    intros z Hz. apply Hpre. by apply list_elem_of_further.
Qed.

Lemma mapM_not_Ok {A B} (f : A → Result B) (l : list A) :
  (∃ x, x ∈ l ∧ ¬ is_Ok (f x)) → ¬ is_Ok (mapM f l).
Proof.
  induction l as [|y l IH]; intros (x & Hx & Hbad).
  - by apply elem_of_nil in Hx.
  - simpl. destruct (f y) as [b|e] eqn:Hy; simpl; [|tauto].
    apply elem_of_cons in Hx as [->|Hx]; [by rewrite Hy in Hbad|].
    destruct (mapM f l) as [k|e]; simpl; [|tauto].
    exfalso. apply IH; [eauto | exact I].
Qed.

(** C8. When node names are given they are resolved by the call itself, in
    the order given and whatever the records are.  The exception of the first
    name that does not resolve, [NodeNotFoundError] by the snapshot's
    interface, is the outcome of [_filter_maintenance_views], and
    [_select_and_render] lets it through; whenever some name does not resolve
    no list of records is returned; when every name resolves, the call
    returns its records. *)
Theorem filter_unresolved_node_name `{TextPrimitives}
    (mvs : list MaintenanceView) (cv : ClusterView) (c : Criteria.t)
    (names : list string) :
  Criteria.node_names c = Some names →
  (∀ pre name post e,
     names = pre ++ name :: post →
     (∀ n, n ∈ pre → is_Ok (get_node_index cv n)) →
     get_node_index cv name = Raise e →
     _filter_maintenance_views mvs cv c = Raise e
     ∧ ∀ mode, _select_and_render cv c mode = Raise e)
  ∧ ((∃ name, name ∈ names ∧ ¬ is_Ok (get_node_index cv name)) →
     ¬ is_Ok (_filter_maintenance_views mvs cv c)
     ∧ ∀ mode, ¬ is_Ok (_select_and_render cv c mode))
  ∧ ((∀ name, name ∈ names → is_Ok (get_node_index cv name)) →
     is_Ok (_filter_maintenance_views mvs cv c)).
Proof.
  intros Hnames.
  assert (∀ mvs' c' e, Criteria.node_names c' = Some names →
            resolve_node_names cv names = Raise e →
            _filter_maintenance_views mvs' cv c' = Raise e) as Hfilter.
  { intros mvs' c' e Hc' Hres. unfold _filter_maintenance_views.
    by rewrite Hc', Hres. }
  assert (Criteria.node_names (Criteria.with_include_internal None c)
          = Some names) as Hnames' by (by destruct c).
  split; [|split].
  - intros pre name post e -> Hpre Hname.
    assert (resolve_node_names cv (pre ++ name :: post) = Raise e) as Hres.
    { unfold resolve_node_names.
      by rewrite (mapM_Raise_first _ e pre name post Hpre Hname). }
    split; [by apply Hfilter|].
    intros mode. unfold _select_and_render. by rewrite (Hfilter _ _ e).
  - intros Hbad. apply (mapM_not_Ok (get_node_index cv)) in Hbad.
    destruct (mapM (get_node_index cv) names) as [k|e] eqn:Hres;
      [by destruct Hbad|].
    assert (resolve_node_names cv names = Raise e) as Hres'.
    { unfold resolve_node_names. by rewrite Hres. }
    split.
    + rewrite (Hfilter _ _ e); [tauto | assumption..].
    + intros mode. unfold _select_and_render.
      rewrite (Hfilter _ _ e); [tauto | assumption..].
  - intros Hall. unfold _filter_maintenance_views, resolve_node_names.
    rewrite Hnames.
    destruct (mapM_is_Ok (get_node_index cv) names Hall) as [k ->].
    exact I.
Qed.

(** C8 on the sample cluster: [node1] is known, [node7] is not. *)
Lemma filter_unresolved_node_name_sample :
  let c := {| Criteria.ids := None; Criteria.users := None;
              Criteria.node_indexes := None;
              Criteria.node_names := Some ["node1"; "node7"];
              Criteria.blocked := None; Criteria.completed := None;
              Criteria.in_progress := None; Criteria.priority := None;
              Criteria.include_internal_maintenances := None |} in
  get_node_index Sample.cluster "node1" = Ok 1
  ∧ get_node_index Sample.cluster "node7" = Raise NodeNotFoundError
  ∧ _filter_maintenance_views [Sample.mv0; Sample.mv1] Sample.cluster c
      = Raise NodeNotFoundError
  ∧ _select_and_render (H:=Sample.plain) Sample.cluster c (Some COMPACT)
      = Raise NodeNotFoundError.
Proof.
  intros c. split; [reflexivity|]. split; [reflexivity|].
  destruct (filter_unresolved_node_name (H:=Sample.plain)
              [Sample.mv0; Sample.mv1] Sample.cluster c ["node1"; "node7"]
              eq_refl) as [Hfirst _].
  destruct (Hfirst ["node1"] "node7" [] NodeNotFoundError eq_refl)
    as [Hfilter Hrender].
  { intros n ->%list_elem_of_singleton. exact I. }
  { reflexivity. }
  split; [exact Hfilter | exact (Hrender (Some COMPACT))].
Defined.

(** The two node criteria given together: both generator conditions read
    the set of the names, so the record on [node1] passes the criterion
    [node_indexes=[0]]. *)
Example filter_node_criteria_share_one_set :
  _filter_maintenance_views [Sample.mv0; Sample.mv1] Sample.cluster
    {| Criteria.ids := None; Criteria.users := None;
       Criteria.node_indexes := Some [0];
       Criteria.node_names := Some ["node1"];
       Criteria.blocked := None; Criteria.completed := None;
       Criteria.in_progress := None; Criteria.priority := None;
       Criteria.include_internal_maintenances := None |}
  = Ok [Sample.mv1].
Proof. reflexivity. Qed.

(** ** C9: the empty selection *)

(** C9. When the filter selects no record, [_select_and_render] returns the
    one message "No maintenances matching given criteria" and calls no
    renderer; a renderer, and with it [tabulate], is only ever handed a
    selection that is not empty. *)
Theorem select_and_render_empty `{TextPrimitives} (cv : ClusterView)
    (c : Criteria.t) (mode : option RenderingMode) :
  (_filter_maintenance_views (get_all_maintenance_views cv) cv
     (Criteria.with_include_internal None c) = Ok [] →
   _select_and_render cv c mode
     = Ok (colored "No maintenances matching given criteria" "red"))
  ∧ (∀ mvs m,
       _filter_maintenance_views (get_all_maintenance_views cv) cv
         (Criteria.with_include_internal None c) = Ok mvs →
       mvs ≠ [] →
       _select_and_render cv c (Some m) = _render mvs cv m).
Proof.
  unfold _select_and_render. split.
  - intros ->. reflexivity.
  - intros mvs m -> Hne. simpl.
    destruct mvs as [|mv mvs]; [contradiction|reflexivity].
Qed.

(** C9 on the sample clusters: nothing to select on the idle cluster, and a
    table of two rows on the other. *)
Lemma select_and_render_empty_sample :
  _select_and_render (H:=Sample.plain) Sample.idle_cluster Criteria.none
    (Some COMPACT)
    = Ok "[red]No maintenances matching given criteria"
  ∧ _select_and_render (H:=Sample.plain) Sample.cluster Criteria.none
      (Some COMPACT)
    = _render (H:=Sample.plain) [Sample.mv0; Sample.mv1] Sample.cluster COMPACT.
Proof.
  destruct (select_and_render_empty (H:=Sample.plain) Sample.idle_cluster
              Criteria.none (Some COMPACT)) as [Hempty _].
  destruct (select_and_render_empty (H:=Sample.plain) Sample.cluster
              Criteria.none (Some COMPACT)) as [_ Hsome].
  split.
  - exact (Hempty eq_refl).
  - exact (Hsome [Sample.mv0; Sample.mv1] COMPACT eq_refl ltac:(discriminate)).
Defined.

(** The renderers themselves, handed no record: a table of headers in the
    compact mode, the empty text in the expanded ones.  [_select_and_render]
    never does so. *)
Example render_of_no_record :
  _render (H:=Sample.plain) [] Sample.cluster COMPACT
    = Ok (@tabulate Sample.plain [] (Some compact_headers))
  ∧ _render (H:=Sample.plain) [] Sample.cluster EXPANDED = Ok "".
Proof. split; reflexivity. Qed.

(** ** C3: the LAST UPDATED cell of the aggregated view *)

Lemma foldl_min_le (x : Z) (xs : list Z) :
  foldl Z.min x xs ≤ x ∧ (∀ y, y ∈ xs → foldl Z.min x xs ≤ y)
  ∧ foldl Z.min x xs ∈ x :: xs.
Proof.
  revert x. induction xs as [|z xs IH]; intros x; simpl.
  - split; [lia|]. split; [intros y Hy; by apply elem_of_nil in Hy|].
    apply list_elem_of_here.
  - destruct (IH (Z.min x z)) as (Hle & Hall & Hin). split; [lia|]. split.
    + intros y [->|Hy]%elem_of_cons; [lia | by apply Hall].
    + apply elem_of_cons in Hin as [Hin|Hin].
      * rewrite Hin. destruct (Z.min_spec x z) as [[_ ->]|[_ ->]].
        -- apply list_elem_of_here.
        -- apply list_elem_of_further, list_elem_of_here.
      * by do 2 apply list_elem_of_further.
Qed.

Section LastUpdated.
Context `{TextPrimitives}.

(** A node without shard states shows the sentinel. *)
Lemma aggregated_last_updated_never (nv : NodeView) :
  shard_states nv = [] → aggregated_last_updated nv = Ok "NEVER".
Proof. unfold aggregated_last_updated. by intros ->. Qed.

(** When a shard of the node has a maintenance record, the cell shows the
    earliest of the records' timestamps, followed by its relative form. *)
Lemma aggregated_last_updated_earliest (nv : NodeView) :
  maintenance_timestamps nv ≠ [] →
  ∃ t, aggregated_last_updated nv
         = Ok (str_datetime t +:+ " (" +:+ naturaltime t +:+ ")")
       ∧ t ∈ maintenance_timestamps nv
       ∧ ∀ t', t' ∈ maintenance_timestamps nv → t ≤ t'.
Proof.
  unfold aggregated_last_updated, maintenance_timestamps. intros Hne.
  destruct (shard_states nv) as [|ss sss] eqn:Hss; [done|].
  destruct (omap _ (ss :: sss)) as [|t ts]; [done|]. simpl.
  destruct (foldl_min_le t ts) as (Hle & Hall & Hin).
  exists (foldl Z.min t ts). split; [reflexivity|]. split; [assumption|].
  intros t' [->|Ht']%elem_of_cons; [assumption | by apply Hall].
Qed.

(** When the node has shard states and none has a maintenance record, the
    guard on [nv.shard_states] passes and [min] is called on nothing. *)
Lemma aggregated_last_updated_raises (nv : NodeView) :
  shard_states nv ≠ [] →
  maintenance_timestamps nv = [] →
  aggregated_last_updated nv
    = Raise (ValueError "min() arg is an empty sequence").
Proof.
  unfold aggregated_last_updated, maintenance_timestamps. intros Hne Hnone.
  destruct (shard_states nv) as [|ss sss]; [done|]. by rewrite Hnone.
Qed.

End LastUpdated.

(** C3. The node [node1] of the sample cluster has one shard, without a
    maintenance record; the maintenance [mnt-1] drains it.  The LAST UPDATED
    cell is not the sentinel "NEVER": computing it raises [ValueError], and
    so does the expanded rendering of the record. *)
Theorem aggregated_last_updated_no_timestamp :
  shard_states Sample.node1 ≠ []
  ∧ maintenance_timestamps Sample.node1 = []
  ∧ aggregated_last_updated (H:=Sample.plain) Sample.node1
      = Raise (ValueError "min() arg is an empty sequence")
  ∧ aggregated (H:=Sample.plain) Sample.mv1 Sample.cluster
      = Raise (ValueError "min() arg is an empty sequence")
  ∧ _render (H:=Sample.plain) [Sample.mv1] Sample.cluster EXPANDED
      = Raise (ValueError "min() arg is an empty sequence").
Proof. repeat split; [discriminate | reflexivity..]. Qed.

(** ** C4: the safety-impact block *)

Lemma append_assoc (a b c : string) : (a +:+ b) +:+ c = a +:+ (b +:+ c).
Proof.
  induction a as [|ch a IH]; [reflexivity|].
  change (String ch ((a +:+ b) +:+ c) = String ch (a +:+ b +:+ c)).
  by rewrite IH.
Qed.

(** A joined list ends with its last element. *)
Lemma concat_snoc (sep : string) (l : list string) (x : string) :
  ∃ pre, String.concat sep (l ++ [x]) = pre +:+ x.
Proof.
  induction l as [|y l [pre IH]]; [by exists ""|].
  exists (y +:+ sep +:+ pre).
  change ((y :: l) ++ [x]) with (y :: (l ++ [x])).
  destruct (l ++ [x]) as [|z l'] eqn:Hl; [by destruct l|].
  change (String.concat sep (y :: z :: l'))
    with (y +:+ sep +:+ String.concat sep (z :: l')).
  by rewrite IH, !append_assoc.
Qed.

Lemma truthy_sections_snoc (sections : list (option string)) (s : string) :
  truthy_sections (sections ++ [Some s])
    = truthy_sections sections ++ (if negb (String.eqb s "") then [s] else []).
Proof.
  unfold truthy_sections. rewrite omap_app. f_equal. simpl.
  by destruct (negb (s =? "")%string).
Qed.

Lemma append_nil_r (a : string) : a +:+ "" = a.
Proof.
  induction a as [|ch a IH]; [reflexivity|].
  change (String ch (a +:+ "") = String ch a). by rewrite IH.
Qed.

(** A joined list holds each of its elements. *)
Lemma concat_elem_of (sep : string) (l : list string) (x : string) :
  x ∈ l → ∃ pre post, String.concat sep l = pre +:+ x +:+ post.
Proof.
  induction l as [|y l IH]; intros Hx; [by apply elem_of_nil in Hx|].
  destruct l as [|z l].
  - apply list_elem_of_singleton in Hx as ->. exists "", "".
    by rewrite append_nil_r.
  - change (String.concat sep (y :: z :: l))
      with (y +:+ sep +:+ String.concat sep (z :: l)).
    apply elem_of_cons in Hx as [->|Hx].
    + by exists "", (sep +:+ String.concat sep (z :: l)).
    + destruct (IH Hx) as (pre & post & ->).
      exists (y +:+ sep +:+ pre), post. by rewrite !append_assoc.
Qed.

Lemma mapM_Ok_elem_of {A B} (f : A → Result B) (l : list A) (k : list B)
    (x : A) :
  mapM f l = Ok k → x ∈ l → ∃ y, f x = Ok y ∧ y ∈ k.
Proof.
  revert k. induction l as [|a l IH]; intros k Hk Hx;
    [by apply elem_of_nil in Hx|].
  simpl in Hk. apply bind_Ok in Hk as (b & Hb & Hk).
  apply bind_Ok in Hk as (k' & Hk' & [= <-]).
  apply elem_of_cons in Hx as [->|Hx].
  - exists b. split; [assumption | apply list_elem_of_here].
  - destruct (IH k' Hk' Hx) as (y & Hy & Hin). exists y.
    split; [assumption | by apply list_elem_of_further].
Qed.

Lemma mapM_is_Ok_iff {A B} (f : A → Result B) (l : list A) :
  is_Ok (mapM f l) ↔ ∀ x, x ∈ l → is_Ok (f x).
Proof.
  split.
  - intros Hok x Hx. destruct (f x) as [b|e] eqn:Hfx; [exact I|].
    exfalso. apply (mapM_not_Ok f l); [|assumption].
    exists x. split; [assumption|]. rewrite Hfx. intros [].
  - intros Hall. by destruct (mapM_is_Ok f l Hall) as [k ->].
Qed.

Section SafetyImpact.
Context `{TextPrimitives}.

Lemma impact_heading_truthy (s : string) :
  truthy_str (Some (impact_heading +:+ s)) = true.
Proof. reflexivity. Qed.

(** The sections with the safety checks shown are those without, followed by
    the impact text when there is one. *)
Lemma one_sections_with_impact (mv : MaintenanceView) (cv : ClusterView)
    (expand_shards : bool) :
  one_sections mv cv expand_shards true
    = (λ sections, sections ++
         (if negb (String.eqb (impact mv true) "") then [impact mv true] else []))
      <$> one_sections mv cv expand_shards false.
Proof.
  unfold one_sections.
  assert (impact mv false = "") as ->.
  { unfold impact. by rewrite andb_false_r. }
  destruct (overview mv cv) as [ov|e]; [|reflexivity]. result_simpl.
  destruct (shards mv cv expand_shards) as [sh|e]; [|reflexivity]. result_simpl.
  destruct (sequencers mv cv) as [sq|e]; [|reflexivity]. result_simpl.
  f_equal.
  change [Some ov; sh; sq; Some (impact mv true)]
    with ([Some ov; sh; sq] ++ [Some (impact mv true)]).
  change [Some ov; sh; sq; Some ""] with ([Some ov; sh; sq] ++ [Some ""]).
  rewrite !truthy_sections_snoc.
  change (if negb ("" =? "")%string then [""] else []) with (@nil string).
  by rewrite app_nil_r.
Qed.

Lemma one_succeeds_alike (mv : MaintenanceView) (cv : ClusterView) :
  is_Ok (one mv cv false true) ↔ is_Ok (one mv cv false false).
Proof.
  unfold one. rewrite !is_Ok_bind_mret, one_sections_with_impact.
  apply is_Ok_fmap.
Qed.

(** Showing the safety checks never decides whether a rendering succeeds. *)
Lemma renders_succeed_together (mvs : list MaintenanceView) (cv : ClusterView) :
  is_Ok (_render mvs cv EXPANDED_WITH_SAFETY_CHECKS)
  ↔ is_Ok (_render mvs cv EXPANDED).
Proof.
  unfold _render, _render_expanded_with_safety_checks, _render_expanded.
  rewrite !is_Ok_bind_mret, !mapM_is_Ok_iff.
  split; intros Hall mv Hmv; by apply one_succeeds_alike, Hall.
Qed.

Lemma mapM_ext_pointwise {A B} (f g : A → Result B) (l : list A) :
  (∀ x, f x = g x) → mapM f l = mapM g l.
Proof.
  intros Hfg. induction l as [|x l IH]; [reflexivity|].
  cbn [mapM]. by rewrite Hfg, IH.
Qed.

(** Without the safety checks a record is rendered from its overview, shard
    and sequencer sections alone. *)
Lemma one_without_safety_checks (mv : MaintenanceView) (cv : ClusterView)
    (expand_shards : bool) :
  one mv cv expand_shards false
    = String.concat (newline +:+ newline)
      <$> (overview_text ← overview mv cv;
           shards_text ← shards mv cv expand_shards;
           sequencers_text ← sequencers mv cv;
           mret (truthy_sections
                   [Some overview_text; shards_text; sequencers_text])).
Proof.
  unfold one, one_sections.
  assert (impact mv false = "") as ->.
  { unfold impact. by rewrite andb_false_r. }
  destruct (overview mv cv) as [ov|e]; [|reflexivity]. result_simpl.
  destruct (shards mv cv expand_shards) as [sh|e]; [|reflexivity]. result_simpl.
  destruct (sequencers mv cv) as [sq|e]; reflexivity.
Qed.

Lemma render_one (f : MaintenanceView → Result string) (mv : MaintenanceView) :
  (parts ← mapM f [mv];
   mret (String.concat (newline +:+ newline +:+ "---" +:+ newline) parts))
  = f mv.
Proof. cbn [mapM]. by destruct (f mv). Qed.

(** C4. Take a record whose overall status is BLOCKED_UNTIL_SAFE and whose
    impact result is populated; the safety-impact block is the heading
    "Safety Check Impact:" followed by the formatter's text for that result,
    and the other sections are the overview, shard and sequencer sections
    that are not empty.  Rendered in plain EXPANDED mode the record is its
    other sections joined, without the block, and so is every record of every
    list.  Rendered in EXPANDED_WITH_SAFETY_CHECKS mode the record is its
    other sections followed by the block, joined.  Hence whenever the record
    renders in plain mode it renders with safety checks, to a text that ends
    with the block, and the text of any list holding it contains the block;
    when its other sections raise, both modes raise alike. *)
Theorem safety_impact_block (mv : MaintenanceView) (cv : ClusterView)
    (r : CheckImpactResponse) :
  overall_status mv = MaintenanceProgress.BLOCKED_UNTIL_SAFE →
  last_check_impact_result mv = Some r →
  let block :=
    "Safety Check Impact:" +:+ newline +:+ newline +:+
    check_impact_string (Some r) (impact_shards mv) (shard_target_state mv) in
  let join := String.concat (newline +:+ newline) in
  let other_sections := λ mv' : MaintenanceView,
    (overview_text ← overview mv' cv;
     shards_text ← shards mv' cv false;
     sequencers_text ← sequencers mv' cv;
     mret (truthy_sections
             [Some overview_text; shards_text; sequencers_text])) in
  impact mv true = block
  ∧ impact mv false = ""
  ∧ _render [mv] cv EXPANDED = join <$> other_sections mv
  ∧ _render [mv] cv EXPANDED_WITH_SAFETY_CHECKS
      = (λ sections, join (sections ++ [block])) <$> other_sections mv
  ∧ (∀ mvs, _render mvs cv EXPANDED
            = (parts ← mapM (λ mv', join <$> other_sections mv') mvs;
               mret (String.concat
                       (newline +:+ newline +:+ "---" +:+ newline) parts)))
  ∧ (is_Ok (_render [mv] cv EXPANDED) →
     ∃ sections pre,
       other_sections mv = Ok sections
       ∧ _render [mv] cv EXPANDED = Ok (join sections)
       ∧ _render [mv] cv EXPANDED_WITH_SAFETY_CHECKS = Ok (pre +:+ block)
       ∧ pre +:+ block = join (sections ++ [block]))
  ∧ (∀ mvs, mv ∈ mvs → is_Ok (_render mvs cv EXPANDED) →
       ∃ pre post,
         _render mvs cv EXPANDED_WITH_SAFETY_CHECKS
           = Ok (pre +:+ block +:+ post))
  ∧ (∀ mvs, is_Ok (_render mvs cv EXPANDED_WITH_SAFETY_CHECKS)
            ↔ is_Ok (_render mvs cv EXPANDED))
  ∧ one_sections mv cv false true
      = (λ sections, sections ++ [block]) <$> one_sections mv cv false false
  ∧ one_sections mv cv false false = other_sections mv.
Proof.
  intros Hblocked Himpact block join other_sections.
  assert (impact mv true = block) as Hshown.
  { unfold impact. rewrite Hblocked, Himpact. reflexivity. }
  assert (impact mv false = "") as Hhidden.
  { unfold impact. by rewrite andb_false_r. }
  assert (one_sections mv cv false true
          = (λ sections, sections ++ [block]) <$> one_sections mv cv false false)
    as Hsections.
  { rewrite one_sections_with_impact, Hshown. reflexivity. }
  assert (one_sections mv cv false false = other_sections mv) as Hplain.
  { unfold one_sections, other_sections. rewrite Hhidden.
    destruct (overview mv cv) as [ov|e]; [|reflexivity]. result_simpl.
    destruct (shards mv cv false) as [sh|e]; [|reflexivity]. result_simpl.
    destruct (sequencers mv cv) as [sq|e]; reflexivity. }
  assert (_render [mv] cv EXPANDED = join <$> other_sections mv) as Hexpanded.
  { unfold _render, _render_expanded. rewrite render_one.
    apply one_without_safety_checks. }
  assert (_render [mv] cv EXPANDED_WITH_SAFETY_CHECKS
          = (λ sections, join (sections ++ [block])) <$> other_sections mv)
    as Hsafety.
  { unfold _render, _render_expanded_with_safety_checks, _render_expanded.
    rewrite render_one. unfold one. rewrite Hsections, Hplain.
    by destruct (other_sections mv). }
  assert (∀ s, one mv cv false true = Ok s → ∃ pre, s = pre +:+ block)
    as Hone.
  { intros s. unfold one. rewrite Hsections.
    destruct (one_sections mv cv false false) as [sections|e]; [|discriminate].
    intros [= <-]. apply concat_snoc. }
  split; [assumption|]. split; [assumption|]. split; [assumption|].
  split; [assumption|]. split.
  { intros mvs. unfold _render, _render_expanded.
    rewrite (mapM_ext_pointwise _ (λ mv', join <$> other_sections mv'));
      [reflexivity|].
    intros mv'. apply one_without_safety_checks. }
  split.
  { rewrite Hexpanded, Hsafety.
    destruct (other_sections mv) as [sections|e]; [intros _ | intros []].
    destruct (concat_snoc (newline +:+ newline) sections block) as [pre Hpre].
    exists sections, pre. split; [reflexivity|]. split; [reflexivity|].
    split; [|by symmetry]. cbn. f_equal. exact Hpre. }
  split.
  { intros mvs Hmv Hok. apply renders_succeed_together in Hok.
    revert Hok. unfold _render, _render_expanded_with_safety_checks,
      _render_expanded.
    destruct (mapM _ mvs) as [parts|e] eqn:Hparts; [intros _ | intros []].
    destruct (mapM_Ok_elem_of _ _ _ _ Hparts Hmv) as (s & Hs & Hin).
    destruct (Hone s Hs) as [pre ->].
    destruct (concat_elem_of (newline +:+ newline +:+ "---" +:+ newline)
                parts _ Hin) as (pre' & post & Hcat).
    exists (pre' +:+ pre), post. result_simpl. f_equal.
    by rewrite Hcat, !append_assoc. }
  split; [intros mvs; apply renders_succeed_together|].
  split; assumption.
Qed.

End SafetyImpact.

(** C4 on the sample cluster: the blocked maintenance [mnt-0] renders in
    plain mode to a text without the block, and with safety checks to that
    same text followed by the block. *)
Lemma safety_impact_block_sample :
  overall_status Sample.mv0 = MaintenanceProgress.BLOCKED_UNTIL_SAFE
  ∧ is_Some (last_check_impact_result Sample.mv0)
  ∧ is_Ok (_render (H:=Sample.plain) [Sample.mv0] Sample.cluster EXPANDED)
  ∧ (∃ pre, _render (H:=Sample.plain) [Sample.mv0] Sample.cluster
              EXPANDED_WITH_SAFETY_CHECKS
            = Ok (pre +:+ "Safety Check Impact:" +:+ newline +:+ newline +:+
                  "REBUILDING_STALL"))
  ∧ ∃ text,
      _render (H:=Sample.plain) [Sample.mv0] Sample.cluster EXPANDED = Ok text
      ∧ _render (H:=Sample.plain) [Sample.mv0] Sample.cluster
          EXPANDED_WITH_SAFETY_CHECKS
        = Ok (text +:+ newline +:+ newline +:+
              "Safety Check Impact:" +:+ newline +:+ newline +:+
              "REBUILDING_STALL").
Proof.
  split; [reflexivity|]. split; [by eexists|]. split; [exact I|].
  destruct (safety_impact_block (H:=Sample.plain) Sample.mv0 Sample.cluster
              _ eq_refl eq_refl) as (_ & _ & _ & _ & _ & Hrenders & _).
  destruct (Hrenders I) as (sections & pre & Hsections & Hplain & Hsafety & Hpre).
  split; [exists pre; exact Hsafety|].
  exists (String.concat (newline +:+ newline) sections).
  split; [exact Hplain|]. rewrite Hsafety, Hpre.
  injection Hsections as <-. reflexivity.
Defined.

(** The internal maintenance [mnt-1] of the sample cluster is blocked too,
    with an impact result; its shard section raises, and so do both modes. *)
Example safety_impact_block_when_sections_raise :
  _render (H:=Sample.plain) [Sample.mv1] Sample.cluster EXPANDED
    = Raise (ValueError "min() arg is an empty sequence")
  ∧ _render (H:=Sample.plain) [Sample.mv1] Sample.cluster
      EXPANDED_WITH_SAFETY_CHECKS
    = Raise (ValueError "min() arg is an empty sequence").
Proof. split; reflexivity. Qed.

(** ** C5: the progress chips of the compact view *)



(** ** C10: one colouring for the aggregated and the per-shard view *)

Section CounterFacts.
Context {A : Type} `{EqDecision A}.

Lemma counter_add_keys (x : A) (c : list (A * nat)) :
  (counter_add x c).*1 = (if decide (x ∈ c.*1) then c.*1 else c.*1 ++ [x]).
Proof.
  induction c as [|[y n] c IH]; [reflexivity|]. cbn [counter_add].
  destruct (decide (x = y)) as [->|Hne].
  - rewrite decide_True by (rewrite fmap_cons; apply list_elem_of_here).
    reflexivity.
  - rewrite !fmap_cons, IH. cbn [fst].
    destruct (decide (x ∈ c.*1)) as [Hin|Hnin].
    + by rewrite decide_True by (by apply list_elem_of_further).
    + rewrite decide_False; [reflexivity|].
      intros [?|?]%elem_of_cons; congruence.
Qed.

Lemma counter_add_NoDup (x : A) (c : list (A * nat)) :
  NoDup c.*1 → NoDup (counter_add x c).*1.
Proof.
  intros Hnd. rewrite counter_add_keys. case_decide as Hin; [assumption|].
  apply NoDup_app. split; [assumption|]. split.
  - intros y Hy ->%list_elem_of_singleton. contradiction.
  - apply NoDup_singleton.
Qed.

Lemma counter_add_elem_of (x : A) (c : list (A * nat)) (y : A) (n : nat) :
  NoDup c.*1 →
  (y, n) ∈ counter_add x c ↔
    (y ≠ x ∧ (y, n) ∈ c)
    ∨ (y = x ∧ ((∃ m, n = S m ∧ (x, m) ∈ c) ∨ ((x ∉ c.*1) ∧ n = 1%nat))).
Proof.
  induction c as [|[z k] c IH]; intros Hnd.
  - cbn [counter_add]. rewrite list_elem_of_singleton, fmap_nil.
    pose proof (not_elem_of_nil x). pose proof (not_elem_of_nil (y, n)).
    pose proof (λ m : nat, not_elem_of_nil (x, m)).
    naive_solver.
  - rewrite fmap_cons in Hnd. apply NoDup_cons in Hnd as [Hz Hnd].
    cbn [fst] in Hz. cbn [counter_add].
    assert (∀ m, (z, m) ∉ c) as Hzc.
    { intros m Hm. apply Hz. apply list_elem_of_fmap. by exists (z, m). }
    destruct (decide (x = z)) as [->|Hne].
    + rewrite !elem_of_cons, fmap_cons, not_elem_of_cons. cbn [fst].
      setoid_rewrite elem_of_cons. naive_solver.
    + rewrite !elem_of_cons, (IH Hnd), fmap_cons, not_elem_of_cons.
      cbn [fst]. setoid_rewrite elem_of_cons. naive_solver.
Qed.

Lemma Counter_snoc (l : list A) (x : A) :
  Counter (l ++ [x]) = counter_add x (Counter l).
Proof. unfold Counter. by rewrite foldl_snoc. Qed.

Lemma Counter_spec (l : list A) :
  NoDup (Counter l).*1
  ∧ ∀ y n, (y, n) ∈ Counter l ↔ n = count_occ EqDecision0 l y ∧ (0 < n)%nat.
Proof.
  induction l as [|x l [Hnd IH]] using rev_ind.
  - split; [apply NoDup_nil_2|]. intros y n. cbn. split.
    + by intros ?%elem_of_nil.
    + intros [-> ?]. lia.
  - rewrite Counter_snoc. split; [by apply counter_add_NoDup|].
    intros y n. rewrite (counter_add_elem_of _ _ _ _ Hnd), count_occ_app.
    cbn [count_occ].
    assert (x ∉ (Counter l).*1 ↔ count_occ EqDecision0 l x = 0%nat) as Hkey.
    { split.
      - intros Hnin. destruct (count_occ EqDecision0 l x) as [|m] eqn:Hm;
          [reflexivity|].
        exfalso. apply Hnin. apply list_elem_of_fmap. exists (x, S m).
        split; [reflexivity|]. apply IH. rewrite Hm. split; [reflexivity|]. apply Nat.lt_0_succ.
      - intros Hzero [[x' m] [-> Hin]]%list_elem_of_fmap.
        cbn [fst] in Hzero. apply IH in Hin as [-> Hpos]. lia. }
    destruct (EqDecision0 x y) as [->|Hne].
    + split.
      * intros [[Hyy _]|[_ [(m & -> & Hin)|[Hnin ->]]]]; [congruence| |].
        -- apply IH in Hin as [-> _]. lia.
        -- apply Hkey in Hnin. lia.
      * intros [-> _]. right. split; [reflexivity|].
        destruct (count_occ EqDecision0 l y) as [|m] eqn:Hm.
        -- right. split; [by apply Hkey | reflexivity].
        -- left. exists (S m). split; [lia|]. apply IH. rewrite Hm. lia.
    + rewrite IH. split.
      * intros [[_ [-> Hpos]]|[-> _]]; [lia | congruence].
      * intros [-> Hpos]. left. split; [congruence|]. lia.
Qed.

End CounterFacts.

Lemma sorted_insert_Permutation {A} (key : A → string) (x : A) (l : list A) :
  sorted_insert key x l ≡ₚ x :: l.
Proof.
  induction l as [|y l IH]; [reflexivity|]. cbn [sorted_insert].
  destruct (String.leb (key x) (key y)); [reflexivity|].
  rewrite IH. apply Permutation_swap.
Qed.

Lemma sorted_Permutation {A} (key : A → string) (l : list A) :
  sorted key l ≡ₚ l.
Proof.
  unfold sorted. induction l as [|x l IH]; [reflexivity|]. cbn [foldr].
  by rewrite sorted_insert_Permutation, IH.
Qed.

Section ShardColouring.
Context `{TextPrimitives}.


End ShardColouring.


(** * Further properties *)

(** ** The filter *)

Lemma filter_true {A} (l : list A) : List.filter (λ _, true) l = l.
Proof. induction l as [|x l IH]; [reflexivity|]. cbn [List.filter]. by rewrite IH. Qed.

Lemma filter_filter_andb {A} (p q : A → bool) (l : list A) :
  List.filter p (List.filter q l) = List.filter (λ x, q x && p x) l.
Proof.
  induction l as [|x l IH]; [reflexivity|]. cbn [List.filter].
  destruct (q x); cbn [List.filter andb]; [|assumption].
  destruct (p x); by rewrite IH.
Qed.

Lemma narrow_as_filter {A} (given : option A)
    (keep : A → MaintenanceView → bool) (mvs : list MaintenanceView) :
  narrow given keep mvs
    = List.filter (λ mv, criterion given (λ a, keep a mv)) mvs.
Proof. destruct given; [reflexivity|]. symmetry. apply filter_true. Qed.

(** The chain of generator expressions is one pass over the records. *)
Lemma filter_one_pass (mvs : list MaintenanceView) (cv : ClusterView)
    (c : Criteria.t) :
  _filter_maintenance_views mvs cv c
    = (λ node_indexes_set, List.filter (passes c node_indexes_set) mvs)
      <$> node_set_of cv c.
Proof.
  unfold _filter_maintenance_views, node_set_of.
  assert (match Criteria.include_internal_maintenances c with
          | Some false => List.filter (λ mv, negb (is_internal mv)) mvs
          | _ => mvs
          end
          = List.filter
              (λ mv, criterion (Criteria.include_internal_maintenances c)
                       (λ include, include || negb (is_internal mv))) mvs)
    as ->.
  { destruct (Criteria.include_internal_maintenances c) as [[|]|];
      cbn [criterion orb]; [symmetry; apply filter_true | reflexivity |
                            symmetry; apply filter_true]. }
  assert (∀ s : gset Z,
            narrow (Criteria.in_progress c) (λ b mv, Bool.eqb (is_in_progress mv) b)
              (narrow (Criteria.completed c) (λ b mv, Bool.eqb (is_completed mv) b)
                 (narrow (Criteria.blocked c) (λ b mv, Bool.eqb (is_blocked mv) b)
                    (narrow (Criteria.priority c)
                       (λ p mv, bool_decide (priority mv = Some p))
                       (narrow (Criteria.node_names c)
                          (λ _ mv, bool_decide (affects_some_node s mv))
                          (narrow (Criteria.node_indexes c)
                             (λ _ mv, bool_decide (affects_some_node s mv))
                             (narrow (Criteria.users c)
                                (λ users mv, bool_decide
                                   (user mv ∈ (list_to_set users : gset string)))
                                (narrow (Criteria.ids c)
                                   (λ ids mv, bool_decide
                                      (group_id mv ∈ (list_to_set ids : gset string)))
                                   (List.filter
                                      (λ mv, criterion
                                         (Criteria.include_internal_maintenances c)
                                         (λ include, include || negb (is_internal mv)))
                                      mvs))))))))
            = List.filter (passes c s) mvs) as Hchain.
  { intros s. rewrite !narrow_as_filter, !filter_filter_andb.
    apply List.filter_ext. intros mv. unfold passes. by rewrite !andb_assoc. }
  destruct (Criteria.node_names c) as [names|].
  - destruct (resolve_node_names cv names) as [s|e]; [|reflexivity].
    cbn. f_equal. apply Hchain.
  - cbn. f_equal. apply Hchain.
Qed.

(** X1. [_filter_maintenance_views] is one pass over the records: once the
    node set is known (the indexes of the names when names are given, the
    given indexes otherwise), the records returned are those of the input
    that pass the conjunction of the criteria given, and the call fails
    exactly when that set cannot be computed. *)
Theorem filter_is_one_pass (mvs : list MaintenanceView) (cv : ClusterView)
    (c : Criteria.t) :
  _filter_maintenance_views mvs cv c
    = (λ node_indexes_set, List.filter (passes c node_indexes_set) mvs)
      <$> node_set_of cv c.
Proof. apply filter_one_pass. Qed.

Lemma filter_sublist {A} (p : A → bool) (l : list A) :
  List.filter p l `sublist_of` l.
Proof.
  induction l as [|x l IH]; [constructor|]. cbn [List.filter].
  destruct (p x); by constructor.
Qed.

Lemma filter_sublist_of_input (mvs : list MaintenanceView) (cv : ClusterView)
    (c : Criteria.t) (out : list MaintenanceView) :
  _filter_maintenance_views mvs cv c = Ok out → out `sublist_of` mvs.
Proof.
  rewrite filter_one_pass. intros (s & _ & ->)%fmap_Ok.
  apply filter_sublist.
Qed.

(** X2. The records the filter returns are a sublist of its input: each is a
    record of the input, none is repeated or made up, and they come in the
    order of the input. *)
Theorem filter_keeps_order (mvs : list MaintenanceView) (cv : ClusterView)
    (c : Criteria.t) (out : list MaintenanceView) :
  _filter_maintenance_views mvs cv c = Ok out →
  out `sublist_of` mvs.
Proof. apply filter_sublist_of_input. Qed.

(** X2 on the sample cluster. *)
Lemma filter_keeps_order_sample :
  _filter_maintenance_views [Sample.mv0; Sample.mv1] Sample.cluster
    (Criteria.with_include_internal (Some false) Criteria.none)
    = Ok [Sample.mv0]
  ∧ [Sample.mv0] `sublist_of` [Sample.mv0; Sample.mv1].
Proof.
  split; [reflexivity|].
  exact (filter_keeps_order [Sample.mv0; Sample.mv1] Sample.cluster
           (Criteria.with_include_internal (Some false) Criteria.none)
           [Sample.mv0] eq_refl).
Defined.

(** X3. Filtering is idempotent: the records a call returned pass the same
    call unchanged. *)
Theorem filter_idempotent (mvs : list MaintenanceView) (cv : ClusterView)
    (c : Criteria.t) (out : list MaintenanceView) :
  _filter_maintenance_views mvs cv c = Ok out →
  _filter_maintenance_views out cv c = Ok out.
Proof.
  rewrite !filter_one_pass. intros (s & Hs & ->)%fmap_Ok.
  rewrite Hs. cbn. f_equal. rewrite filter_filter_andb.
  apply List.filter_ext. intros mv. apply andb_diag.
Qed.

(** X3 on the sample cluster. *)
Lemma filter_idempotent_sample :
  _filter_maintenance_views [Sample.mv0; Sample.mv1] Sample.cluster
    (Criteria.with_include_internal (Some false) Criteria.none)
    = Ok [Sample.mv0]
  ∧ _filter_maintenance_views [Sample.mv0] Sample.cluster
      (Criteria.with_include_internal (Some false) Criteria.none)
    = Ok [Sample.mv0].
Proof.
  split; [reflexivity|].
  exact (filter_idempotent [Sample.mv0; Sample.mv1] Sample.cluster
           (Criteria.with_include_internal (Some false) Criteria.none)
           [Sample.mv0] eq_refl).
Defined.

(** X4. Records are judged one by one: filtering a concatenation is
    filtering its two parts and concatenating the results, and whether the
    call fails does not depend on the records at all. *)
Theorem filter_of_concatenation (mvs1 mvs2 : list MaintenanceView)
    (cv : ClusterView) (c : Criteria.t) :
  _filter_maintenance_views (mvs1 ++ mvs2) cv c
    = (out1 ← _filter_maintenance_views mvs1 cv c;
       out2 ← _filter_maintenance_views mvs2 cv c;
       mret (out1 ++ out2))
  ∧ (is_Ok (_filter_maintenance_views mvs1 cv c)
     ↔ is_Ok (_filter_maintenance_views mvs2 cv c)).
Proof.
  rewrite !filter_one_pass.
  destruct (node_set_of cv c) as [s|e]; [|by split].
  split; [|by split]. cbn. by rewrite List.filter_app.
Qed.

(** X5. When node names are given the [node_indexes] criterion has no effect:
    both generator conditions read the one variable [node_indexes_set], which
    holds the indexes of the names by the time the records are drawn, so any
    [node_indexes] gives the result of the names alone. *)
Theorem filter_node_names_override_node_indexes (mvs : list MaintenanceView)
    (cv : ClusterView) (c : Criteria.t) (names : list string)
    (node_indexes : option (list Z)) :
  Criteria.node_names c = Some names →
  _filter_maintenance_views mvs cv (with_node_indexes node_indexes c)
    = _filter_maintenance_views mvs cv c.
Proof.
  intros Hnames. rewrite !filter_one_pass.
  assert (node_set_of cv (with_node_indexes node_indexes c) = node_set_of cv c)
    as ->.
  { unfold node_set_of. cbn. by rewrite Hnames. }
  destruct (node_set_of cv c) as [s|e]; [|reflexivity]. cbn. f_equal.
  apply List.filter_ext. intros mv. unfold passes. cbn. rewrite Hnames.
  cbn [criterion].
  destruct (bool_decide (affects_some_node s mv)).
  - by destruct node_indexes, (Criteria.node_indexes c).
  - by rewrite !andb_false_r.
Qed.

(** X5 on the sample cluster: [node_indexes=[0]] with [node_names=["node1"]]
    selects the maintenance of node 1 only. *)
Lemma filter_node_names_override_node_indexes_sample :
  let c := {| Criteria.ids := None; Criteria.users := None;
              Criteria.node_indexes := None;
              Criteria.node_names := Some ["node1"];
              Criteria.blocked := None; Criteria.completed := None;
              Criteria.in_progress := None; Criteria.priority := None;
              Criteria.include_internal_maintenances := None |} in
  _filter_maintenance_views [Sample.mv0; Sample.mv1] Sample.cluster
    (with_node_indexes (Some [0]) c) = Ok [Sample.mv1]
  ∧ _filter_maintenance_views [Sample.mv0; Sample.mv1] Sample.cluster c
    = Ok [Sample.mv1].
Proof.
  intros c.
  pose proof (filter_node_names_override_node_indexes
                [Sample.mv0; Sample.mv1] Sample.cluster c ["node1"]
                (Some [0]) eq_refl) as Heq.
  split; [rewrite Heq|]; reflexivity.
Defined.

(** ** The tables *)

Lemma mapM_Raise_inv {A B} (f : A → Result B) (l : list A) (e : Exception) :
  mapM f l = Raise e → ∃ x, x ∈ l ∧ f x = Raise e.
Proof.
  induction l as [|x l IH]; [discriminate|]. cbn [mapM].
  destruct (f x) as [b|e'] eqn:Hx; result_simpl.
  - destruct (mapM f l) as [k|e']; [discriminate|]. result_simpl.
    intros [= <-]. destruct (IH eq_refl) as (y & Hy & Hfy).
    exists y. split; [by apply list_elem_of_further | assumption].
  - intros [= <-]. exists x. split; [apply list_elem_of_here | assumption].
Qed.

Lemma mapM_Ok_shape {A B} (f : A → Result B) (l : list A) (k : list B)
    (P : B → Prop) :
  mapM f l = Ok k →
  (∀ x y, x ∈ l → f x = Ok y → P y) →
  length k = length l ∧ Forall P k.
Proof.
  revert k. induction l as [|x l IH]; intros k Hk HP.
  - injection Hk as <-. by split.
  - cbn [mapM] in Hk. apply bind_Ok in Hk as (y & Hy & Hk).
    apply bind_Ok in Hk as (k' & Hk' & [= <-]).
    destruct (IH k' Hk') as [Hlen Hall].
    { intros x' y' Hx'. apply HP. by apply list_elem_of_further. }
    split; [cbn; by rewrite Hlen|].
    constructor; [|assumption]. eapply HP; [apply list_elem_of_here | eassumption].
Qed.

Section Tables.
Context `{TextPrimitives}.

Lemma mv_to_row_outcome (mv : MaintenanceView) (cv : ClusterView) :
  (targets_present mv → is_Ok (mv_to_row mv cv))
  ∧ (¬ targets_present mv →
     mv_to_row mv cv
       = Raise (AttributeError "'NoneType' object has no attribute 'name'")).
Proof.
  unfold targets_present, mv_to_row, shard_progress, sequencer_progress,
    not_none, _color. result_simpl.
  destruct (affects_shards mv), (shard_target_state mv) as [st|],
    (affects_sequencers mv), (sequencer_target_state mv) as [sq|];
    result_simpl; split; try (intros _; exact I); try reflexivity;
    try (intros [Hs Hq]; first [by destruct (Hs eq_refl) | by destruct (Hq eq_refl)]);
    intros Hnot; exfalso; apply Hnot; split; intros; by eauto.
Qed.

(** X6. The compact table is rendered exactly when every record has the
    target states its flags call for; otherwise the renderer raises
    [AttributeError] (the read of [.name] on [None]) and nothing else.  It
    never consults the cluster view. *)
Theorem compact_render_outcome (mvs : list MaintenanceView)
    (cv : ClusterView) :
  (is_Ok (_render_compact mvs cv) ↔ ∀ mv, mv ∈ mvs → targets_present mv)
  ∧ (∀ e, _render_compact mvs cv = Raise e →
          e = AttributeError "'NoneType' object has no attribute 'name'")
  ∧ (∀ cv', _render_compact mvs cv' = _render_compact mvs cv).
Proof.
  split; [|split].
  - unfold _render_compact. rewrite is_Ok_bind_mret, mapM_is_Ok_iff.
    split; intros Hall mv Hmv; specialize (Hall mv Hmv).
    + destruct (mv_to_row_outcome mv cv) as [_ Hbad].
      unfold targets_present.
      destruct (affects_shards mv) eqn:Hs, (shard_target_state mv) as [st|] eqn:Hst,
        (affects_sequencers mv) eqn:Hq, (sequencer_target_state mv) as [sq|] eqn:Hsq;
        try (split; intros; by eauto);
        exfalso; rewrite Hbad in Hall; try exact Hall;
        unfold targets_present; rewrite ?Hs, ?Hst, ?Hq, ?Hsq;
        intros [Hs' Hq']; first [by destruct (Hs' eq_refl) | by destruct (Hq' eq_refl)].
    + by apply mv_to_row_outcome.
  - intros e. unfold _render_compact.
    destruct (mapM _ mvs) as [rows|e'] eqn:Hrows; [discriminate|].
    result_simpl. intros [= <-].
    apply mapM_Raise_inv in Hrows as (mv & _ & Hmv).
    destruct (mv_to_row_outcome mv cv) as [Hok Hbad].
    assert (¬ targets_present mv) as Hnot.
    { intros Hp. apply Hok in Hp. by rewrite Hmv in Hp. }
    rewrite (Hbad Hnot) in Hmv. by injection Hmv as <-.
  - reflexivity.
Qed.

End Tables.

Section TableShapes.
Context `{TextPrimitives}.

(** X7. Every table handed to [tabulate] has rows as wide as its header
    list and one row per item: per record in the compact view, per affected
    storage node in the aggregated view, per shard of the node in the
    per-shard view, per sequencer node in the sequencer view. *)
Theorem tables_match_their_headers (mv : MaintenanceView) (cv : ClusterView) :
  (∀ mvs out, _render_compact mvs cv = Ok out →
     ∃ tbl, out = tabulate tbl (Some compact_headers)
       ∧ length tbl = length mvs
       ∧ Forall (λ row, length row = length compact_headers) tbl)
  ∧ (∀ out, aggregated mv cv = Ok out →
       ∃ tbl, out = tabulate tbl (Some aggregated_headers)
         ∧ length tbl = length (affected_storage_node_indexes mv)
         ∧ Forall (λ row, length row = length aggregated_headers) tbl)
  ∧ (∀ ni out, shards_table mv cv ni = Ok out →
       ∃ tbl, out = tabulate tbl (Some shards_table_headers)
         ∧ length tbl = length (get_shards_by_node_index mv ni)
         ∧ Forall (λ row, length row = length shards_table_headers) tbl)
  ∧ (∀ out, sequencers mv cv = Ok (Some out) →
       ∃ tbl, out = "Sequencer Maintenances:" +:+ newline +:+
                    indent (tabulate tbl (Some aggregated_headers)) "  "
         ∧ length tbl = length (sequencer_nodes mv)
         ∧ Forall (λ row, length row = length aggregated_headers) tbl).
Proof.
  split; [|split; [|split]].
  - intros mvs out. unfold _render_compact.
    intros (rows & Hrows & [= <-])%bind_Ok.
    exists (row_cells <$> rows). split; [reflexivity|].
    rewrite length_fmap. split.
    + eapply (mapM_Ok_shape _ _ _ (λ _, True)); [eassumption | done].
    + apply Forall_fmap, Forall_forall. by intros row _.
  - intros out. unfold aggregated. intros (tbl & Htbl & [= <-])%bind_Ok.
    exists tbl. split; [reflexivity|].
    eapply mapM_Ok_shape; [eassumption|].
    intros ni row _. unfold aggregated_row.
    intros (nv & _ & Hrow)%bind_Ok. apply bind_Ok in Hrow as (tgt & _ & Hrow).
    apply bind_Ok in Hrow as (chunks & _ & Hrow).
    apply bind_Ok in Hrow as (t & _ & [= <-]). reflexivity.
  - intros ni out. unfold shards_table.
    intros (tbl & Htbl & [= <-])%bind_Ok.
    exists tbl. split; [reflexivity|].
    eapply mapM_Ok_shape; [eassumption|].
    intros shard row _. unfold shards_table_row.
    intros (tgt & _ & Hrow)%bind_Ok. apply bind_Ok in Hrow as (col & _ & [= <-]).
    reflexivity.
  - intros out. unfold sequencers.
    destruct (negb (affects_sequencers mv)); [discriminate|].
    intros (tbl & Htbl & [= <-])%bind_Ok.
    exists tbl. split; [reflexivity|].
    eapply mapM_Ok_shape; [eassumption|].
    intros n row _. unfold sequencers_row.
    intros (nv & _ & Hrow)%bind_Ok. apply bind_Ok in Hrow as (tgt & _ & Hrow).
    apply bind_Ok in Hrow as (sq & _ & Hrow).
    apply bind_Ok in Hrow as (col & _ & [= <-]). reflexivity.
Qed.

End TableShapes.

(** X7 on the sample cluster: the aggregated table of [mnt-0]. *)
Lemma tables_match_their_headers_sample :
  ∃ tbl, aggregated (H:=Sample.plain) Sample.mv0 Sample.cluster
           = Ok (@tabulate Sample.plain tbl (Some aggregated_headers))
    ∧ length tbl = 1%nat
    ∧ Forall (λ row, length row = 7%nat) tbl.
Proof.
  destruct (tables_match_their_headers (H:=Sample.plain) Sample.mv0
              Sample.cluster) as (_ & Haggregated & _).
  destruct (aggregated (H:=Sample.plain) Sample.mv0 Sample.cluster)
    as [out|e] eqn:Hout; [|discriminate].
  destruct (Haggregated out eq_refl) as (tbl & -> & Hlen & Hall).
  by exists tbl.
Defined.

(** ** The groups of the aggregated view *)

Section GroupFacts.
Context {A : Type} `{EqDecision A}.

Lemma counter_add_sum (x : A) (c : list (A * nat)) :
  sum_list (counter_add x c).*2 = S (sum_list c.*2).
Proof.
  induction c as [|[y n] c IH]; [reflexivity|]. cbn [counter_add].
  destruct (decide (x = y)); [reflexivity|].
  rewrite !fmap_cons. cbn [snd sum_list_with id]. rewrite IH. cbn. lia.
Qed.

Lemma Counter_sum (l : list A) : sum_list (Counter l).*2 = length l.
Proof.
  induction l as [|x l IH] using rev_ind; [reflexivity|].
  rewrite Counter_snoc, counter_add_sum, IH, length_app. cbn. lia.
Qed.

Lemma Counter_NoDup (l : list A) : NoDup (Counter l).
Proof. eapply NoDup_fmap_1, Counter_spec. Qed.

Lemma Counter_Permutation (l1 l2 : list A) :
  l1 ≡ₚ l2 → Counter l1 ≡ₚ Counter l2.
Proof.
  intros Hperm. apply NoDup_Permutation; [apply Counter_NoDup..|].
  intros [y n].
  rewrite !(proj2 (Counter_spec _)).
  assert (count_occ EqDecision0 l1 y = count_occ EqDecision0 l2 y) as ->;
    [|reflexivity].
  by apply Permutation_count_occ.
Qed.

Lemma sorted_insert_StronglySorted (key : A → string) (x : A) (l : list A) :
  StronglySorted (λ a b, String.le (key a) (key b)) l →
  StronglySorted (λ a b, String.le (key a) (key b)) (sorted_insert key x l).
Proof.
  induction l as [|y l IH]; intros Hl; cbn [sorted_insert].
  - by repeat constructor.
  - apply StronglySorted_cons in Hl as [Hy Hl].
    destruct (String.leb (key x) (key y)) eqn:Hxy.
    + constructor; [by constructor|].
      assert (String.le (key x) (key y)) as Hle
        by (unfold String.le; by rewrite Hxy).
      constructor; [assumption|].
      eapply Forall_impl; [exact Hy|]. intros z Hz. cbn in *. by etrans.
    + constructor; [by apply IH|].
      rewrite sorted_insert_Permutation. constructor; [|assumption].
      destruct (total String.le (key x) (key y)) as [Hle|Hle]; [|assumption].
      unfold String.le in Hle. by rewrite Hxy in Hle.
Qed.

Lemma sorted_StronglySorted (key : A → string) (l : list A) :
  StronglySorted (λ a b, String.le (key a) (key b)) (sorted key l).
Proof.
  unfold sorted. induction l as [|x l IH]; [constructor|].
  cbn [foldr]. by apply sorted_insert_StronglySorted.
Qed.

End GroupFacts.

(** X8. In the aggregated view the counts of a node's groups add up to the
    number of the node's shards under the maintenance, for the current
    states and for the maintenance statuses, and no group is empty. *)
Theorem group_counts_sum (mv : MaintenanceView) (ni : Z) :
  sum_list (current_state_groups mv ni).*2
    = length (get_shards_by_node_index mv ni)
  ∧ sum_list (maintenance_status_groups mv ni).*2
    = length (get_shards_by_node_index mv ni)
  ∧ Forall (λ group, (0 < group.2)%nat) (current_state_groups mv ni)
  ∧ Forall (λ group, (0 < group.2)%nat) (maintenance_status_groups mv ni).
Proof.
  unfold current_state_groups, maintenance_status_groups.
  rewrite !sorted_Permutation, !Counter_sum, !length_fmap.
  split; [reflexivity|]. split; [reflexivity|].
  split; apply Forall_forall; intros [y n] Hin; by apply Counter_spec in Hin as [_ ?].
Qed.

(** X9. The groups of a node come in ascending order of their names (the
    order of [sorted], by code points), and no state or status has two
    groups. *)
Theorem groups_sorted_by_name (mv : MaintenanceView) (ni : Z) :
  StronglySorted
    (λ a b, String.le (ShardOperationalState.name a.1)
              (ShardOperationalState.name b.1))
    (current_state_groups mv ni)
  ∧ NoDup (current_state_groups mv ni).*1
  ∧ StronglySorted
      (λ a b, String.le (MaintenanceStatus.name a.1) (MaintenanceStatus.name b.1))
      (maintenance_status_groups mv ni)
  ∧ NoDup (maintenance_status_groups mv ni).*1.
Proof.
  unfold current_state_groups, maintenance_status_groups.
  split; [apply sorted_StronglySorted|].
  split; [rewrite sorted_Permutation; apply Counter_spec|].
  split; [apply sorted_StronglySorted|].
  rewrite sorted_Permutation. apply Counter_spec.
Qed.

(** X10. The groups, hence the chips, do not depend on the order in which a
    node's shards are listed: two records whose shards have the same current
    states up to order get the same groups, provided distinct states present
    have distinct names. *)
Theorem groups_ignore_shard_order (mv mv' : MaintenanceView) (ni : Z) :
  _get_shard_operational_state mv <$> get_shards_by_node_index mv ni
    ≡ₚ _get_shard_operational_state mv' <$> get_shards_by_node_index mv' ni →
  (∀ a b,
     a ∈ _get_shard_operational_state mv <$> get_shards_by_node_index mv ni →
     b ∈ _get_shard_operational_state mv <$> get_shards_by_node_index mv ni →
     ShardOperationalState.name a = ShardOperationalState.name b → a = b) →
  current_state_groups mv ni = current_state_groups mv' ni.
Proof.
  intros Hperm Hinj. unfold current_state_groups.
  set (l1 := _get_shard_operational_state mv <$> get_shards_by_node_index mv ni) in *.
  set (l2 := _get_shard_operational_state mv' <$> get_shards_by_node_index mv' ni) in *.
  apply (StronglySorted_unique_strong
           (λ a b : ShardOperationalState.t * nat,
              String.le (ShardOperationalState.name a.1)
                (ShardOperationalState.name b.1)));
    [|apply sorted_StronglySorted..|].
  - intros [y1 n1] [y2 n2]. rewrite !sorted_Permutation.
    intros [-> Hpos1]%Counter_spec [-> Hpos2]%Counter_spec Hle1 Hle2.
    cbn [fst] in *.
    assert (y1 = y2) as ->.
    { apply Hinj.
      - apply list_elem_of_In, (count_occ_In ShardOperationalState.eq_dec). lia.
      - rewrite Hperm.
        apply list_elem_of_In, (count_occ_In ShardOperationalState.eq_dec). lia.
      - by apply (anti_symm String.le). }
    f_equal. by apply Permutation_count_occ.
  - rewrite !sorted_Permutation. by apply Counter_Permutation.
Qed.

(** ** Rendering of lists and of single records *)

Section RenderFacts.
Context `{TextPrimitives}.

Lemma overview_Ok (mv : MaintenanceView) (cv : ClusterView) :
  ∃ text, ∀ cv', overview mv cv' = Ok text.
Proof. unfold overview, _color. result_simpl. by eexists. Qed.

(** X11. A record that affects neither shards nor sequencers always renders
    in the expanded modes, whatever the cluster view and the flags: its
    sections are the overview and, when shown and not empty, the impact
    text. *)
Theorem record_without_shards_and_sequencers (mv : MaintenanceView)
    (cv : ClusterView) :
  affects_shards mv = false →
  affects_sequencers mv = false →
  ∃ overview_text,
    overview mv cv = Ok overview_text
    ∧ ∀ cv' expand_shards show_safety_check_results,
        one_sections mv cv' expand_shards show_safety_check_results
          = Ok (truthy_sections
                  [Some overview_text;
                   Some (impact mv show_safety_check_results)]).
Proof.
  intros Hs Hq. destruct (overview_Ok mv cv) as [text Htext].
  exists text. split; [apply Htext|].
  intros cv' e s. unfold one_sections, shards, sequencers.
  rewrite Htext, Hs, Hq. reflexivity.
Qed.

Lemma render_as_mapM (mvs : list MaintenanceView) (cv : ClusterView)
    (mode : RenderingMode) :
  ∃ (B : Type) (f : MaintenanceView → Result B) (g : list B → string),
    ∀ l, _render l cv mode = (parts ← mapM f l; mret (g parts)).
Proof.
  destruct mode.
  - by exists CompactRow, (λ mv, mv_to_row mv cv),
      (λ rows, tabulate (row_cells <$> rows) (Some compact_headers)).
  - by exists string, (λ mv, one mv cv false false),
      (String.concat (newline +:+ newline +:+ "---" +:+ newline)).
  - by exists string, (λ mv, one mv cv true false),
      (String.concat (newline +:+ newline +:+ "---" +:+ newline)).
  - by exists string, (λ mv, one mv cv false true),
      (String.concat (newline +:+ newline +:+ "---" +:+ newline)).
Qed.

(** X12. In every mode a list renders exactly when each of its records
    renders alone, and a list fails with the exception of its first record
    that does not render: there is no partial text. *)
Theorem render_list_by_records (mvs : list MaintenanceView) (cv : ClusterView)
    (mode : RenderingMode) :
  (is_Ok (_render mvs cv mode) ↔ ∀ mv, mv ∈ mvs → is_Ok (_render [mv] cv mode))
  ∧ (∀ pre mv post e,
       mvs = pre ++ mv :: post →
       (∀ mv', mv' ∈ pre → is_Ok (_render [mv'] cv mode)) →
       _render [mv] cv mode = Raise e →
       _render mvs cv mode = Raise e).
Proof.
  destruct (render_as_mapM mvs cv mode) as (B & f & g & Hrender).
  assert (∀ mv, is_Ok (_render [mv] cv mode) ↔ is_Ok (f mv)) as Hone.
  { intros mv. rewrite Hrender. cbn [mapM]. by destruct (f mv). }
  split.
  - rewrite Hrender, is_Ok_bind_mret, mapM_is_Ok_iff.
    split; intros Hall mv Hmv; by apply Hone, Hall.
  - intros pre mv post e -> Hpre. rewrite !Hrender. cbn [mapM].
    destruct (f mv) as [b|e'] eqn:Hmv; [discriminate|]. result_simpl.
    intros [= ->].
    rewrite (mapM_Raise_first f e pre mv post); [reflexivity | | assumption].
    intros mv' Hmv'. by apply Hone, Hpre.
Qed.

(** X13. An affected storage node the cluster view cannot find is reported,
    not skipped: when the lookup of the first such node raises, the aggregated
    table and the expanded renderings of the record raise the same exception,
    while the compact rendering of the record still succeeds. *)
Theorem expanded_view_reports_unknown_node (mv : MaintenanceView)
    (cv : ClusterView) (pre : list Z) (ni : Z) (post : list Z)
    (e : Exception) :
  affects_shards mv = true →
  affected_storage_node_indexes mv = pre ++ ni :: post →
  (∀ n, n ∈ pre → is_Ok (aggregated_row mv cv n)) →
  get_node_view cv ni = Raise e →
  aggregated mv cv = Raise e
  ∧ _render [mv] cv EXPANDED = Raise e
  ∧ _render [mv] cv EXPANDED_WITH_SAFETY_CHECKS = Raise e
  ∧ (targets_present mv → is_Ok (_render [mv] cv COMPACT)).
Proof.
  intros Hs Hnodes Hpre Hni.
  assert (aggregated mv cv = Raise e) as Haggregated.
  { unfold aggregated. rewrite Hnodes.
    rewrite (mapM_Raise_first _ e pre ni post); [reflexivity | assumption |].
    unfold aggregated_row. by rewrite Hni. }
  assert (∀ show, one mv cv false show = Raise e) as Hone.
  { intros show. unfold one, one_sections, shards.
    destruct (overview_Ok mv cv) as [text ->]. rewrite Hs. cbn [negb].
    by rewrite Haggregated. }
  split; [assumption|].
  unfold _render, _render_expanded_with_safety_checks, _render_expanded.
  cbn [mapM]. rewrite !Hone. split; [reflexivity|]. split; [reflexivity|].
  intros Hp. unfold _render_compact. rewrite is_Ok_bind_mret, mapM_is_Ok_iff.
  intros mv' ->%list_elem_of_singleton. by apply mv_to_row_outcome.
Qed.

End RenderFacts.

(** ** Parsing *)

Section ParsingFacts.
Context `{CaseMapping}.

(** X14. [_parse_shard_target_state] reads its text without regard to case:
    a text whose lower case is "may-disappear" gives MAY_DISAPPEAR, one whose
    lower case is "drained" gives DRAINED, and every other text raises
    [ValueError] quoting the text as given.  So the parser only ever yields
    MAY_DISAPPEAR or DRAINED, targets that a drained shard satisfies and a
    shard of unknown state does not. *)
Theorem parsed_target_state (tgt_state : string) :
  (str_lower tgt_state = "may-disappear" →
     _parse_shard_target_state tgt_state
     = Ok ShardOperationalState.MAY_DISAPPEAR)
  ∧ (str_lower tgt_state = "drained" →
       _parse_shard_target_state tgt_state = Ok ShardOperationalState.DRAINED)
  ∧ (str_lower tgt_state ≠ "may-disappear" →
     str_lower tgt_state ≠ "drained" →
       _parse_shard_target_state tgt_state
       = Raise (ValueError ("Can't parse shard_target_state: " +:+ tgt_state)))
  ∧ (∀ tgt, _parse_shard_target_state tgt_state = Ok tgt →
       (tgt = ShardOperationalState.MAY_DISAPPEAR
        ∧ str_lower tgt_state = "may-disappear"
        ∨ tgt = ShardOperationalState.DRAINED
          ∧ str_lower tgt_state = "drained")
       ∧ _satisfy_shard_op_state ShardOperationalState.DRAINED tgt = true
       ∧ _satisfy_shard_op_state ShardOperationalState.UNKNOWN tgt = false)
  ∧ (∀ e, _parse_shard_target_state tgt_state = Raise e →
       e = ValueError ("Can't parse shard_target_state: " +:+ tgt_state)
       ∧ str_lower tgt_state ≠ "may-disappear"
       ∧ str_lower tgt_state ≠ "drained").
Proof.
  unfold _parse_shard_target_state.
  destruct (decide (str_lower tgt_state = "may-disappear")) as [Hm|Hm];
    [|destruct (decide (str_lower tgt_state = "drained")) as [Hd|Hd]].
  - split; [done|]. split; [by rewrite Hm|]. split; [done|].
    split; [|discriminate]. intros tgt [= <-]. split; [by left|]. by split.
  - split; [done|]. split; [done|]. split; [done|].
    split; [|discriminate]. intros tgt [= <-]. split; [by right|]. by split.
  - split; [done|]. split; [done|]. split; [done|].
    split; [discriminate|]. by intros e [= <-].
Qed.

(** X15. [_parse_priority] on a text returns the member whose name is the
    upper-cased text, whenever there is one, and otherwise raises
    [ValueError] quoting the text as given: the [KeyError] of the lookup never
    escapes, and a text is never parsed to [None]. *)
Theorem parsed_priority (priority : string) :
  ((∃ v, _parse_priority (Some priority) = Ok (Some v)
         ∧ MaintenancePriority.name v = str_upper priority)
   ∨ (_parse_priority (Some priority)
        = Raise (ValueError ("Can't parse priority: " +:+ priority))
      ∧ ∀ v, MaintenancePriority.name v ≠ str_upper priority))
  ∧ ∀ v, MaintenancePriority.name v = str_upper priority →
         _parse_priority (Some priority) = Ok (Some v).
Proof.
  unfold _parse_priority, priority_members. cbn [List.find].
  assert (∀ v w, MaintenancePriority.name v = MaintenancePriority.name w → v = w)
    as Hinj by (by intros [] []).
  repeat case_bool_decide.
  all: split;
    [first [ left; eexists; split; [reflexivity | eassumption]
           | right; split; [reflexivity | by intros []] ]
    | intros v Hv;
      first [ by destruct v
            | do 2 f_equal; apply Hinj; congruence ] ].
Qed.

End ParsingFacts.

(** ** The commands *)

Section CommandFacts.
Context `{TextPrimitives} `{CaseMapping} `{Shell}.

(** X16. In [show] the flag for safety-check results wins over the flag for
    shards: with both set the output is the one without [expand_shards],
    rendered with aggregated shard tables, and per-shard tables are only
    rendered when safety-check results are not asked for. *)
Theorem show_safety_checks_win (cv : ClusterView)
    (ids users : option (list string)) (node_indexes : option (list Z))
    (node_names : option (list string))
    (blocked completed in_progress : option bool) (expand_shards : option bool) :
  show cv ids users node_indexes node_names blocked completed in_progress
    expand_shards true
  = show cv ids users node_indexes node_names blocked completed in_progress
      None true
  ∧ ∀ mvs,
      _filter_maintenance_views (get_all_maintenance_views cv) cv
        {| Criteria.ids := ids; Criteria.users := users;
           Criteria.node_indexes := node_indexes;
           Criteria.node_names := node_names; Criteria.blocked := blocked;
           Criteria.completed := completed;
           Criteria.in_progress := in_progress; Criteria.priority := None;
           Criteria.include_internal_maintenances := None |} = Ok mvs →
      mvs ≠ [] →
      show cv ids users node_indexes node_names blocked completed in_progress
        expand_shards true
      = _render_expanded mvs cv false true
      ∧ show cv ids users node_indexes node_names blocked completed
          in_progress (Some true) false
        = _render_expanded mvs cv true false.
Proof.
  split; [reflexivity|]. intros mvs Hmvs Hne.
  unfold show, _select_and_render.
  cbv [Criteria.with_include_internal Criteria.ids Criteria.users
       Criteria.node_indexes Criteria.node_names Criteria.blocked
       Criteria.completed Criteria.in_progress Criteria.priority].
  rewrite Hmvs. result_simpl.
  destruct mvs as [|mv mvs]; [contradiction|]. by split.
Qed.

(** X17. [remove] sends a removal to the server only after the user
    answered yes to its question.  Whenever a removal is among the events of
    a run, the run began with exactly these events, in this order: the
    heading, the expanded rendering of the selection, the notice (the
    warning when internal maintenances were asked for), the question
    ("Take the RISK?" then, else "Continue?"), the line naming the group
    ids, and the removal; whatever follows is printed text, so there is one
    question and one removal.  The user answered yes to that question; the
    removal carries the reason given, the user of [log_user] when that is a
    non-empty text and the login name otherwise, and the group ids, in order,
    of the records the filter selected with the parsed priority: a non-empty
    sublist of the snapshot's records, none of them internal unless internal
    maintenances were asked for. *)
Theorem remove_requests_are_confirmed (cv : ClusterView) (reason : string)
    (ids users : option (list string)) (node_indexes : option (list Z))
    (node_names : option (list string))
    (blocked completed in_progress : option bool)
    (log_user priority : option string) (include_internal_maintenances : bool)
    (group_ids : list string) (by_user log_reason : string) :
  RemoveRequested group_ids by_user log_reason
    ∈ (remove cv reason ids users node_indexes node_names blocked completed
         in_progress log_user priority include_internal_maintenances).1 →
  log_reason = reason
  ∧ by_user = match log_user with
              | Some user => if bool_decide (user = "") then getuser else user
              | None => getuser
              end
  ∧ confirm_prompt
      (if include_internal_maintenances then "Take the RISK?" else "Continue?")
    = true
  ∧ ∃ parsed mvs text rest,
      _parse_priority priority = Ok parsed
      ∧ _filter_maintenance_views (get_all_maintenance_views cv) cv
          {| Criteria.ids := ids; Criteria.users := users;
             Criteria.node_indexes := node_indexes;
             Criteria.node_names := node_names; Criteria.blocked := blocked;
             Criteria.completed := completed;
             Criteria.in_progress := in_progress;
             Criteria.priority := parsed;
             Criteria.include_internal_maintenances :=
               Some include_internal_maintenances |} = Ok mvs
      ∧ mvs ≠ []
      ∧ mvs `sublist_of` get_all_maintenance_views cv
      ∧ (include_internal_maintenances = false →
         ∀ mv, mv ∈ mvs → is_internal mv = false)
      ∧ group_ids = group_id <$> mvs
      ∧ _render_expanded mvs cv false false = Ok text
      ∧ (remove cv reason ids users node_indexes node_names blocked completed
           in_progress log_user priority include_internal_maintenances).1
        = [Printed ("You are going to remove following maintenances:"
                    +:+ newline);
           Printed text;
           Printed (if include_internal_maintenances
                    then remove_warning else remove_note);
           Asked (if include_internal_maintenances
                  then "Take the RISK?" else "Continue?");
           Printed ("Removing maintenances " +:+ repr_strs group_ids);
           RemoveRequested group_ids by_user reason] ++ rest
      ∧ ∀ ev, ev ∈ rest → ∃ printed, ev = Printed printed.
Proof.
  unfold remove.
  destruct (_parse_priority priority) as [prio|e]; cbn [fst];
    [|by intros ?%elem_of_nil].
  destruct (_filter_maintenance_views _ _ _) as [mvs|e] eqn:Hmvs; cbn [fst];
    [|by intros ?%elem_of_nil].
  destruct mvs as [|mv mvs].
  { destruct include_internal_maintenances; cbn;
      by intros [[=]|?%elem_of_nil]%elem_of_cons. }
  cbn [length bool_decide andb]. rewrite bool_decide_eq_false_2 by done.
  cbn [andb].
  destruct (_render_expanded (mv :: mvs) cv false false) as [text|e] eqn:Htext.
  2:{ cbn. by intros [[=]|?%elem_of_nil]%elem_of_cons. }
  destruct (confirm_prompt _) eqn:Hanswer; cbn [negb].
  2:{ cbn. rewrite !elem_of_cons, elem_of_nil. naive_solver. }
  assert ((if truthy_str log_user then default "" log_user else getuser)
          = match log_user with
            | Some user => if bool_decide (user = "") then getuser else user
            | None => getuser
            end) as Huser.
  { destruct log_user as [user|]; [|reflexivity].
    unfold truthy_str. cbn [default].
    destruct (String.eqb_spec user "") as [->|Hne]; [reflexivity|].
    by rewrite bool_decide_eq_false_2. }
  assert ((mv :: mvs) `sublist_of` get_all_maintenance_views cv) as Hsub
    by (by eapply filter_sublist_of_input).
  assert (include_internal_maintenances = false →
          ∀ mv', mv' ∈ mv :: mvs → is_internal mv' = false) as Hinternal.
  { intros -> mv' Hmv'.
    pose proof (filter_yields_from_input _ _ _ _ _ Hmvs Hmv') as Hin.
    cbn in Hin. apply list_elem_of_In, filter_In in Hin as [_ Hneg].
    by apply negb_true_iff in Hneg. }
  destruct (remove_maintenances _ _ _) as [removed|e]; cbn [fst app];
    rewrite !elem_of_cons, elem_of_nil; intros Hin;
    repeat (destruct Hin as [Hin|Hin]; try discriminate); try contradiction;
    injection Hin as -> -> ->;
    (split; [reflexivity|]); (split; [exact Huser|]);
    (split; [by destruct include_internal_maintenances|]).
  - exists prio, (mv :: mvs), text,
      [Printed ("Removed maintenances " +:+ repr_strs removed)].
    do 4 (split; [done|]). split; [exact Hinternal|].
    split; [reflexivity|]. split; [exact Htext|].
    split; [by destruct include_internal_maintenances|].
    intros ev ->%list_elem_of_singleton. by eexists.
  - exists prio, (mv :: mvs), text, [].
    do 4 (split; [done|]). split; [exact Hinternal|].
    split; [reflexivity|]. split; [exact Htext|].
    split; [by destruct include_internal_maintenances|].
    by intros ev ?%elem_of_nil.
Qed.

End CommandFacts.

Lemma mapM_Ok_Forall2 {A B} (f : A → Result B) (l : list A) (k : list B) :
  mapM f l = Ok k → Forall2 (λ x y, f x = Ok y) l k.
Proof.
  revert k. induction l as [|x l IH]; intros k Hk.
  - injection Hk as <-. constructor.
  - cbn [mapM] in Hk. apply bind_Ok in Hk as (y & Hy & Hk).
    apply bind_Ok in Hk as (k' & Hk' & [= <-]). constructor; auto.
Qed.

Section ListCommand.
Context `{TextPrimitives} `{CaseMapping}.

(** X18. [list] prints, for a priority that parses and node names that
    resolve, either the message that nothing matches, when no record is
    selected, or the compact table with one row per selected record, in the
    order of the selection and led by the record's group id; the records need
    the target states their flags call for, and internal maintenances are not
    filtered out. *)
Theorem list_maintenances_outcome (cv : ClusterView)
    (ids users : option (list string)) (node_indexes : option (list Z))
    (node_names : option (list string))
    (blocked completed in_progress : option bool) (priority : option string)
    (parsed : option MaintenancePriority.t) (mvs : list MaintenanceView) :
  _parse_priority priority = Ok parsed →
  _filter_maintenance_views (get_all_maintenance_views cv) cv
    {| Criteria.ids := ids; Criteria.users := users;
       Criteria.node_indexes := node_indexes;
       Criteria.node_names := node_names; Criteria.blocked := blocked;
       Criteria.completed := completed; Criteria.in_progress := in_progress;
       Criteria.priority := parsed;
       Criteria.include_internal_maintenances := None |} = Ok mvs →
  (∀ mv, mv ∈ mvs → targets_present mv) →
  (mvs = [] →
   list_maintenances cv ids users node_indexes node_names blocked completed
     in_progress priority
   = Ok (colored "No maintenances matching given criteria" "red"))
  ∧ (mvs ≠ [] →
     ∃ rows,
       list_maintenances cv ids users node_indexes node_names blocked
         completed in_progress priority
       = Ok (tabulate (row_cells <$> rows) (Some compact_headers))
       ∧ Forall2 (λ mv row, row_id row = group_id mv) mvs rows).
Proof.
  intros Hparsed Hmvs Htargets.
  unfold list_maintenances, _select_and_render. rewrite Hparsed. result_simpl.
  cbv [Criteria.with_include_internal Criteria.ids Criteria.users
       Criteria.node_indexes Criteria.node_names Criteria.blocked
       Criteria.completed Criteria.in_progress Criteria.priority].
  rewrite Hmvs. result_simpl. split.
  - by intros ->.
  - intros Hne. destruct mvs as [|mv mvs]; [contradiction|].
    rewrite bool_decide_eq_false_2 by done.
    unfold _render, _render_compact.
    destruct (mapM (λ mv0, mv_to_row mv0 cv) (mv :: mvs)) as [rows|e] eqn:Hrows.
    + exists rows. split; [reflexivity|].
      eapply Forall2_impl; [by apply mapM_Ok_Forall2|].
      intros mv' row. unfold mv_to_row.
      intros (col & _ & Hrow)%bind_Ok. apply bind_Ok in Hrow as (sh & _ & Hrow).
      apply bind_Ok in Hrow as (sq & _ & [= <-]). reflexivity.
    + exfalso. apply mapM_Raise_inv in Hrows as (mv' & Hmv' & Hbad).
      destruct (mv_to_row_outcome mv' cv) as [Hok _].
      specialize (Hok (Htargets mv' Hmv')). by rewrite Hbad in Hok.
Qed.

End ListCommand.

(** X18 on the sample cluster: the blocked maintenances, internal or not. *)
Lemma list_maintenances_outcome_sample :
  ∃ rows,
    list_maintenances (H:=Sample.plain) (H0:=SampleShell.ascii_case)
      Sample.cluster None None None None (Some true) None None None
    = Ok (@tabulate Sample.plain (row_cells <$> rows) (Some compact_headers))
    ∧ Forall2 (λ mv row, row_id row = group_id mv) [Sample.mv0; Sample.mv1]
        rows.
Proof.
  destruct (list_maintenances_outcome (H:=Sample.plain)
              (H0:=SampleShell.ascii_case) Sample.cluster None None None None
              (Some true) None None None None [Sample.mv0; Sample.mv1])
    as [_ Hsome].
  - reflexivity.
  - reflexivity.
  - intros mv Hmv. split; [intros _ | intros Hq].
    + apply elem_of_cons in Hmv as [->|Hmv]; [by eexists|].
      apply list_elem_of_singleton in Hmv as ->. by eexists.
    + apply elem_of_cons in Hmv as [->|Hmv]; [discriminate|].
      apply list_elem_of_singleton in Hmv as ->. discriminate.
  - exact (Hsome ltac:(discriminate)).
Defined.

(** X6 on the sample cluster. *)
Lemma compact_render_outcome_sample :
  is_Ok (_render_compact (H:=Sample.plain) [Sample.mv0; Sample.mv1]
           Sample.cluster)
  ∧ _render_compact (H:=Sample.plain) [Sample.mv0; Sample.mv1]
      SampleMore.cluster7
    = _render_compact (H:=Sample.plain) [Sample.mv0; Sample.mv1]
        Sample.cluster.
Proof.
  destruct (compact_render_outcome (H:=Sample.plain)
              [Sample.mv0; Sample.mv1] Sample.cluster) as (_ & _ & Hcv).
  split; [exact I | exact (Hcv SampleMore.cluster7)].
Defined.

(** X10 on the sample cluster: node 0 with its shards in either order. *)
Lemma groups_ignore_shard_order_sample :
  current_state_groups Sample.mv0 0
    = current_state_groups SampleMore.mv0_reversed 0
  ∧ current_state_groups Sample.mv0 0
    = [(ShardOperationalState.DRAINED, 1%nat);
       (ShardOperationalState.MIGRATING_DATA, 1%nat)].
Proof.
  split; [|reflexivity].
  apply groups_ignore_shard_order.
  - change ([ShardOperationalState.DRAINED; ShardOperationalState.MIGRATING_DATA]
            ≡ₚ [ShardOperationalState.MIGRATING_DATA;
                ShardOperationalState.DRAINED]).
    apply Permutation_swap.
  - change (∀ a b,
              a ∈ [ShardOperationalState.DRAINED;
                   ShardOperationalState.MIGRATING_DATA] →
              b ∈ [ShardOperationalState.DRAINED;
                   ShardOperationalState.MIGRATING_DATA] →
              ShardOperationalState.name a = ShardOperationalState.name b →
              a = b).
    intros a b Ha Hb.
    apply elem_of_cons in Ha as [->|Ha];
      [|apply list_elem_of_singleton in Ha as ->];
      (apply elem_of_cons in Hb as [->|Hb];
       [|apply list_elem_of_singleton in Hb as ->]);
      first [reflexivity | discriminate].
Defined.

(** X11 on the sample cluster: [mnt-9] affects no shard and no sequencer. *)
Lemma record_without_shards_and_sequencers_sample :
  affects_shards SampleMore.mv9 = false
  ∧ affects_sequencers SampleMore.mv9 = false
  ∧ ∃ overview_text,
      one_sections (H:=Sample.plain) SampleMore.mv9 SampleMore.cluster7 true
        false = Ok [overview_text].
Proof.
  split; [reflexivity|]. split; [reflexivity|].
  destruct (record_without_shards_and_sequencers (H:=Sample.plain)
              SampleMore.mv9 Sample.cluster eq_refl eq_refl)
    as (text & Htext & Hsections).
  exists text. rewrite Hsections. injection Htext as <-. reflexivity.
Defined.

(** X13 on the sample cluster: node 7 is unknown to it. *)
Lemma expanded_view_reports_unknown_node_sample :
  get_node_view Sample.cluster 7 = Raise NodeNotFoundError
  ∧ _render (H:=Sample.plain) [SampleMore.mv7] Sample.cluster EXPANDED
    = Raise NodeNotFoundError
  ∧ is_Ok (_render (H:=Sample.plain) [SampleMore.mv7] Sample.cluster COMPACT).
Proof.
  split; [reflexivity|].
  destruct (expanded_view_reports_unknown_node (H:=Sample.plain)
              SampleMore.mv7 Sample.cluster [] 7 [] NodeNotFoundError)
    as (_ & Hexpanded & _ & Hcompact).
  - reflexivity.
  - reflexivity.
  - by intros n ?%elem_of_nil.
  - reflexivity.
  - split; [exact Hexpanded|]. apply Hcompact.
    split; [intros _; by eexists | discriminate].
Defined.

(** X17 on the sample cluster: an obliging user removes what is blocked; the
    internal maintenance [mnt-1] is not in the request. *)
Lemma remove_requests_are_confirmed_sample :
  RemoveRequested ["mnt-0"] "operator" "cleanup"
    ∈ (remove (H:=Sample.plain) (H0:=SampleShell.ascii_case)
         (H1:=SampleShell.obliging) Sample.cluster "cleanup" None None None
         None (Some true) None None None None false).1
  ∧ ∃ mvs, ["mnt-0"] = group_id <$> mvs
      ∧ mvs `sublist_of` [Sample.mv0; Sample.mv1]
      ∧ ∀ mv, mv ∈ mvs → is_internal mv = false.
Proof.
  assert (RemoveRequested ["mnt-0"] "operator" "cleanup"
            ∈ (remove (H:=Sample.plain) (H0:=SampleShell.ascii_case)
                 (H1:=SampleShell.obliging) Sample.cluster "cleanup" None None
                 None None (Some true) None None None None false).1) as Hin.
  { do 5 apply list_elem_of_further. apply list_elem_of_here. }
  split; [exact Hin|].
  destruct (remove_requests_are_confirmed (H:=Sample.plain)
              (H0:=SampleShell.ascii_case) (H1:=SampleShell.obliging)
              _ _ _ _ _ _ _ _ _ _ _ _ _ _ _ Hin)
    as (_ & _ & _ & parsed & mvs & text & rest
        & _ & _ & _ & Hsub & Hinternal & Hids & _).
  exists mvs. split; [exact Hids|]. split; [exact Hsub|].
  exact (Hinternal eq_refl).
Defined.

(** A user who declines: the same command asks and requests nothing. *)
Example remove_declined :
  (remove (H:=Sample.plain) (H0:=SampleShell.ascii_case)
     (H1:=SampleShell.declining) Sample.cluster "cleanup" None None None None
     (Some true) None None None None false).2 = Ok ()
  ∧ Asked "Continue?"
      ∈ (remove (H:=Sample.plain) (H0:=SampleShell.ascii_case)
           (H1:=SampleShell.declining) Sample.cluster "cleanup" None None
           None None (Some true) None None None None false).1
  ∧ length (remove (H:=Sample.plain) (H0:=SampleShell.ascii_case)
              (H1:=SampleShell.declining) Sample.cluster "cleanup" None None
              None None (Some true) None None None None false).1 = 4%nat.
Proof.
  split; [reflexivity|]. split; [|reflexivity].
  do 3 apply list_elem_of_further. apply list_elem_of_here.
Qed.

(** The target state as the views print it is not a text the parser takes:
    "MAY_DISAPPEAR" has an underscore where the argument has a hyphen. *)
Example parse_printed_target_state :
  _parse_shard_target_state (H:=SampleShell.ascii_case) "May-Disappear"
    = Ok ShardOperationalState.MAY_DISAPPEAR
  ∧ _parse_shard_target_state (H:=SampleShell.ascii_case)
      (ShardOperationalState.name ShardOperationalState.MAY_DISAPPEAR)
    = Raise (ValueError "Can't parse shard_target_state: MAY_DISAPPEAR")
  ∧ _parse_priority (H:=SampleShell.ascii_case) (Some "imminent")
    = Ok (Some MaintenancePriority.IMMINENT).
Proof. repeat split. Qed.
